(** * Verification of the media-scripts file movers (consolidate_files.py, split_dir.py)

    Shallow embedding of the safe-move primitive, the collision-avoiding
    name resolver, the first-fit-decreasing packer, the directory scanners,
    the argument validation and the sequential execution loops. *)

From stdpp Require Import base gmap sets list strings pretty.
From Stdlib Require Import Ascii Sorted Permutation.

(* ================================================================== *)
(** ** Filesystem model *)

(** A path is the list of its components (a normalised [pathlib.Path]);
    [str] is injective on normalised paths, so sets of [str(path)] are
    modelled as sets of paths. *)
Abbreviation path := (list string).

Definition path_join (d : path) (name : string) : path := d ++ [name].

Abbreviation content := (list Byte.byte).

(** Regular files with their bytes, and the other existing entries
    (directories). *)
Record world := mkWorld { files : gmap path content; dirs : gset path }.

Definition path_exists (p : path) (w : world) : bool :=
  bool_decide (is_Some (files w !! p)) || bool_decide (p ∈ dirs w).

Inductive os_error := EXDEV | ENOENT | EEXIST | EACCES.

Global Instance os_error_eq_dec : EqDecision os_error.
Proof. solve_decision. Defined.

(** The exceptions [move_file] raises: [FileExistsError] (no-clobber),
    an [OSError] from the OS, and the two [RuntimeError]s of the copy
    fallback. *)
Inductive move_error :=
| FileExists
| OSError (e : os_error)
| SizeMismatch
| ChecksumMismatch.

(** A small state-and-exception monad for the Python code. *)
Definition M (A : Type) : Type := world -> (move_error + A) * world.

Definition ret {A} (a : A) : M A := fun w => (inr a, w).
Definition bind {A B} (m : M A) (k : A -> M B) : M B := fun w =>
  match m w with
  | (inl e, w') => (inl e, w')
  | (inr a, w') => k a w'
  end.

Notation "'let!' x ':=' m 'in' k" := (bind m (fun x => k))
  (at level 200, x binder, m at level 100, k at level 200).

Definition raise {A} (e : move_error) : M A := fun w => (inl e, w).
Definition get_world : M world := fun w => (inr w, w).
Definition put_world (w : world) : M unit := fun _ => (inr tt, w).

Section SafeMove.

(** The environment: which renames the OS refuses (e.g. [EXDEV] across
    mount points), what [shutil.copy2] actually writes (a faithful copy,
    or a short or corrupted one, or a failure leaving a partial file),
    which unlinks fail, and the SHA-256 hex digest of a content. *)
Inductive copy_result :=
| CopyDone (written : content)
| CopyFailed (e : os_error) (partial : option content).

Variable rename_errno : path -> path -> option os_error.
Variable copy2_env : path -> path -> content -> copy_result.
Variable unlink_errno : path -> option os_error.
Variable sha256 : content -> string.

(** [p.exists()] *)
Definition exists_ (p : path) : M bool :=
  let! w := get_world in ret (path_exists p w).

(** Reading a file: [open(p, "rb")] raises [ENOENT] on a missing file. *)
Definition read_file (p : path) : M content :=
  let! w := get_world in
  match files w !! p with
  | Some d => ret d
  | None => raise (OSError ENOENT)
  end.

(** [compute_sha256(p)] *)
Definition compute_sha256 (p : path) : M string :=
  let! d := read_file p in ret (sha256 d).

(** [p.stat().st_size] *)
Definition st_size (p : path) : M nat :=
  let! d := read_file p in ret (length d).

(** [src.rename(dest)]: [None] when it succeeded, [Some e] for the errno
    of the [OSError] it raised. *)
Definition try_rename (src dest : path) : M (option os_error) :=
  let! w := get_world in
  match files w !! src with
  | None => ret (Some ENOENT)
  | Some d =>
      match rename_errno src dest with
      | Some e => ret (Some e)
      | None =>
          let! _ := put_world (mkWorld (<[dest:=d]> (delete src (files w))) (dirs w)) in
          ret None
      end
  end.

(** [shutil.copy2(src, dest)] *)
Definition copy2 (src dest : path) : M unit :=
  let! d := read_file src in
  let! w := get_world in
  match copy2_env src dest d with
  | CopyDone d' => put_world (mkWorld (<[dest:=d']> (files w)) (dirs w))
  | CopyFailed e None => raise (OSError e)
  | CopyFailed e (Some d') =>
      let! _ := put_world (mkWorld (<[dest:=d']> (files w)) (dirs w)) in
      raise (OSError e)
  end.

(** [p.unlink()] *)
Definition unlink (p : path) : M unit :=
  let! w := get_world in
  match files w !! p with
  | None => raise (OSError ENOENT)
  | Some _ =>
      match unlink_errno p with
      | Some e => raise (OSError e)
      | None => put_world (mkWorld (delete p (files w)) (dirs w))
      end
  end.

(** [move_file] of consolidate_files.py (lines 99-130). *)
Definition move_file (src dest : path) (verify : bool) : M unit :=
  let! ex := exists_ dest in
  if ex then (raise FileExists : M unit) else
  let! src_checksum := (if verify then (let! c := compute_sha256 src in ret (Some c))
                  else ret None : M (option string)) in
  let! r := try_rename src dest in
  match r with
  | None => ret tt
  | Some e =>
      if bool_decide (e <> EXDEV) then (raise (OSError e) : M unit) else
      let! _ := copy2 src dest in
      let! s1 := st_size src in
      let! s2 := st_size dest in
      if bool_decide (s1 <> s2) then (let! _ := unlink dest in (raise SizeMismatch : M unit)) else
      let! _ := (if verify then
             let! dest_checksum := compute_sha256 dest in
             if bool_decide (src_checksum <> Some dest_checksum)
             then (let! _ := unlink dest in (raise ChecksumMismatch : M unit))
             else ret tt
           else ret tt : M unit) in
      unlink src
  end.

(** [move_file] of split_dir.py (lines 75-93): no checksum. *)
Definition move_file_split (src dest : path) : M unit :=
  let! ex := exists_ dest in
  if ex then (raise FileExists : M unit) else
  let! r := try_rename src dest in
  match r with
  | None => ret tt
  | Some e =>
      if bool_decide (e <> EXDEV) then (raise (OSError e) : M unit) else
      let! _ := copy2 src dest in
      let! s1 := st_size src in
      let! s2 := st_size dest in
      if bool_decide (s1 <> s2) then (let! _ := unlink dest in (raise SizeMismatch : M unit)) else
      unlink src
  end.

End SafeMove.

(* ================================================================== *)
(** ** NameResolver: [get_unique_name] and the planning loop of
    consolidate_files.py *)

(** [name.rfind('.')], [None] standing for -1. *)
Fixpoint rfind_dot_go (s : string) (i : nat) (acc : option nat) : option nat :=
  match s with
  | EmptyString => acc
  | String c s' => rfind_dot_go s' (S i) (if Ascii.eqb c "."%char then Some i else acc)
  end.

Definition rfind_dot (s : string) : option nat := rfind_dot_go s 0 None.

(** [PurePath(name).stem] and [PurePath(name).suffix]: the suffix starts at
    the last dot when [0 < i < len(name) - 1]. *)
Definition stem_suffix (name : string) : string * string :=
  match rfind_dot name with
  | Some i =>
      if bool_decide (0 < i /\ i < String.length name - 1)
      then (String.substring 0 i name, String.substring i (String.length name - i) name)
      else (name, ""%string)
  | None => (name, ""%string)
  end.

Definition path_stem (name : string) : string := fst (stem_suffix name).
Definition path_suffix (name : string) : string := snd (stem_suffix name).

(** [candidate.exists() or str(candidate) in claimed_names] *)
Definition taken (disk claimed : gset path) (c : path) : bool :=
  bool_decide (c ∈ disk) || bool_decide (c ∈ claimed).

(** [target_dir / f"{stem}_{counter}{suffix}"] *)
Definition numbered_candidate (target_dir : path) (stem suffix : string)
    (counter : nat) : path :=
  path_join target_dir (stem +:+ "_" +:+ pretty counter +:+ suffix).

(** The [while] loop of [get_unique_name] once the plain candidate is
    taken, run for at most [fuel] counters starting at [counter]. *)
Fixpoint probe (disk claimed : gset path) (target_dir : path) (stem suffix : string)
    (fuel counter : nat) : option path :=
  match fuel with
  | 0 => None
  | S fuel' =>
      let c := numbered_candidate target_dir stem suffix counter in
      if taken disk claimed c
      then probe disk claimed target_dir stem suffix fuel' (S counter)
      else Some c
  end.

(** [get_unique_name(target_dir, filename)]: returns the path and the
    updated [claimed_names]; [disk] is the set of paths for which
    [.exists()] holds.  [size disk + size claimed + 1] counters always
    suffice (lemma [probe_some] below), so the fallback to the plain
    candidate is never taken. *)
Definition get_unique_name (disk claimed : gset path) (target_dir : path)
    (filename : string) : path * gset path :=
  let stem := path_stem filename in
  let suffix := path_suffix filename in
  let c0 := path_join target_dir filename in
  let c :=
    if taken disk claimed c0
    then default c0 (probe disk claimed target_dir stem suffix
                       (size disk + size claimed + 1) 1)
    else c0 in
  (c, {[c]} ∪ claimed).

(** [filepath.name] *)
Definition path_name (p : path) : string := default ""%string (last p).

(** The seeding loop of [main] (lines 158-160): every entry of the target
    directory is claimed. *)
Definition seed_claims (target_dir : path) (entries : list string) : gset path :=
  list_to_set (map (path_join target_dir) entries).

(** The planning loop of [main] (lines 175-179): one [(src, dest,
    was_renamed)] per scanned file, in discovery order. *)
Fixpoint plan_ops (disk : gset path) (target_dir : path) (claimed : gset path)
    (files : list path) : list (path * path * bool) * gset path :=
  match files with
  | [] => ([], claimed)
  | filepath :: rest =>
      let simple_dest := path_join target_dir (path_name filepath) in
      let '(final_dest, claimed') :=
        get_unique_name disk claimed target_dir (path_name filepath) in
      let was_renamed := bool_decide (final_dest <> simple_dest) in
      let '(ops, claimed'') := plan_ops disk target_dir claimed' rest in
      ((filepath, final_dest, was_renamed) :: ops, claimed'')
  end.

Definition op_dest (op : path * path * bool) : path := op.1.2.

(* ================================================================== *)
(** ** BinPacker: the packing loop of split_dir.py [main] (lines 146-170) *)

(** A scanned file: [(entry.name, entry.stat().st_size)]. *)
Abbreviation entry := (string * nat)%type.

(** [files.sort(key=lambda x: x[1], reverse=True)]: Python's sort is
    stable also with [reverse=True].  As an insertion sort: each entry,
    taken in scan order, goes after every entry at least as large. *)
Fixpoint insert_desc (x : entry) (l : list entry) : list entry :=
  match l with
  | [] => [x]
  | y :: l' => if bool_decide (x.2 <= y.2) then y :: insert_desc x l' else x :: l
  end.

Definition sort_desc (l : list entry) : list entry :=
  fold_left (fun acc x => insert_desc x acc) l [].

(** [for i, batch_size in enumerate(batch_sizes): if batch_size + size <=
    max_size: ... break]: the first fitting index, counted from [i]. *)
Fixpoint first_fit (max_size size : nat) (batch_sizes : list nat) (i : nat) : option nat :=
  match batch_sizes with
  | [] => None
  | b :: bs =>
      if bool_decide (b + size <= max_size) then Some i
      else first_fit max_size size bs (S i)
  end.

(** One iteration of [for name, size in files]. *)
Definition pack_step (max_size : nat) (st : list (list entry) * list nat)
    (e : entry) : list (list entry) * list nat :=
  let '(batches, batch_sizes) := st in
  let size := e.2 in
  if bool_decide (max_size < size) (* size > max_size *) then (batches ++ [[e]], batch_sizes ++ [size])
  else
    match first_fit max_size size batch_sizes 0 with
    | Some i => (alter (fun b => b ++ [e]) i batches,
                 alter (fun s => s + size) i batch_sizes)
    | None => (batches ++ [[e]], batch_sizes ++ [size])
    end.

Definition pack (max_size : nat) (files : list entry) : list (list entry) * list nat :=
  fold_left (pack_step max_size) files ([], []).

(** Sort, then pack: [(batches, batch_sizes)]. *)
Definition split_batches (max_size : nat) (files : list entry) :
    list (list entry) * list nat :=
  pack max_size (sort_desc files).

Definition bsum (b : list entry) : nat := sum_list_with snd b.

(** First-fit placement as section 4.3 of the spec words it: bins are
    records with their members and total, scanned in creation order. *)
Record bin := mkBin { members : list entry; total : nat }.

Fixpoint spec_place_first_fit (capacity : nat) (e : entry) (bins : list bin) : list bin :=
  match bins with
  | [] => [mkBin [e] e.2]
  | b :: bs =>
      if bool_decide (total b + e.2 <= capacity)
      then mkBin (members b ++ [e]) (total b + e.2) :: bs
      else b :: spec_place_first_fit capacity e bs
  end.

Definition spec_pack_step (capacity : nat) (bins : list bin) (e : entry) : list bin :=
  if bool_decide (capacity < e.2) then bins ++ [mkBin [e] e.2]
  else spec_place_first_fit capacity e bins.

Definition spec_pack (capacity : nat) (sorted : list entry) : list bin :=
  fold_left (spec_pack_step capacity) sorted [].

(* ================================================================== *)
(** ** DirectoryScanner *)

(** A directory entry as [os.stat] / [os.lstat] see it: a regular file, a
    directory (readable or not), a symbolic link to another node
    ([None]: dangling), or a special file (fifo, socket, device). *)
#[warnings="-register-all"]
Inductive node :=
| NReg (size : nat)
| NDir (readable : bool) (children : list (string * node))
| NLink (target : option node)
| NSpecial.

(** What [os.stat] (which follows symbolic links) finds. *)
Fixpoint resolve (n : node) : option node :=
  match n with
  | NLink (Some t) => resolve t
  | NLink None => None
  | _ => Some n
  end.

(** [Path.is_dir()] and [Path.is_file()]: both follow symbolic links. *)
Definition is_dir (n : node) : bool :=
  match resolve n with Some (NDir _ _) => true | _ => false end.
Definition is_file (n : node) : bool :=
  match resolve n with Some (NReg _) => true | _ => false end.

(** The files [get_all_files] collects below an entry at path [p] whose
    node is [n]: a directory is listed (an unreadable one raises
    [PermissionError], caught: nothing), a regular file is collected, and
    a link is treated as its target (see [scan_node_unfold] for the shape
    of the Python loop body). *)
Fixpoint scan_node (p : path) (n : node) {struct n} : list path :=
  match n with
  | NReg _ => [p]
  | NDir readable children =>
      if readable then
        (fix go (cs : list (string * node)) : list path :=
           match cs with
           | [] => []
           | (name, c) :: cs' => scan_node (path_join p name) c ++ go cs'
           end) children
      else []
  | NLink (Some t) => scan_node p t
  | NLink None => []
  | NSpecial => []
  end.

(** [get_all_files(directory)] of consolidate_files.py (lines 61-72). *)
Definition get_all_files (directory : path) (n : node) : list path :=
  match resolve n with
  | Some (NDir true children) =>
      flat_map (fun '(name, c) => scan_node (path_join directory name) c) children
  | _ => []
  end.

(** [st_size] as [entry.stat()] reports it (following links). *)
Definition stat_size (n : node) : nat :=
  match resolve n with Some (NReg sz) => sz | _ => 0 end.

(** The shallow scan of split_dir.py [main] (lines 365-368):
    [if entry.is_file(): files.append((entry.name, entry.stat().st_size))]. *)
Definition split_scan (listing : list (string * node)) : list entry :=
  flat_map (fun '(name, c) => if is_file c then [(name, stat_size c)] else []) listing.

(* ================================================================== *)
(** ** Python text: [os.fsdecode], [str.strip], [\d] and [\s]

    File names and command-line arguments are byte strings, which Python
    (CPython 3.11, Unicode 14.0.0, UTF-8 locale) decodes into code points
    with the [surrogateescape] handler: each byte of an invalid sequence
    becomes the code point [0xDC00 + byte].  Code points are [N]s. *)

Definition cont_byte (b : N) : bool := bool_decide (128 <= b <= 191)%N.

Definition utf8_lead2 (b0 : N) : bool := bool_decide (194 <= b0 <= 223)%N.

Definition utf8_lead3 (b0 b1 : N) : bool :=
  (bool_decide (b0 = 224)%N && bool_decide (160 <= b1 <= 191)%N) ||
  (bool_decide (225 <= b0 <= 236)%N && cont_byte b1) ||
  (bool_decide (b0 = 237)%N && bool_decide (128 <= b1 <= 159)%N) ||
  (bool_decide (238 <= b0 <= 239)%N && cont_byte b1).

Definition utf8_lead4 (b0 b1 : N) : bool :=
  (bool_decide (b0 = 240)%N && bool_decide (144 <= b1 <= 191)%N) ||
  (bool_decide (241 <= b0 <= 243)%N && cont_byte b1) ||
  (bool_decide (b0 = 244)%N && bool_decide (128 <= b1 <= 143)%N).

(** [bytes.decode("utf-8", "surrogateescape")]. *)
Fixpoint utf8_decode (l : list N) : list N :=
  match l with
  | [] => []
  | b0 :: r0 =>
      if (b0 <? 128)%N then b0 :: utf8_decode r0 else
      match r0 with
      | [] => (56320 + b0)%N :: utf8_decode r0
      | b1 :: r1 =>
          if utf8_lead2 b0 && cont_byte b1
          then ((b0 - 192) * 64 + (b1 - 128))%N :: utf8_decode r1 else
          match r1 with
          | [] => (56320 + b0)%N :: utf8_decode r0
          | b2 :: r2 =>
              if utf8_lead3 b0 b1 && cont_byte b2
              then ((b0 - 224) * 4096 + (b1 - 128) * 64 + (b2 - 128))%N :: utf8_decode r2 else
              match r2 with
              | [] => (56320 + b0)%N :: utf8_decode r0
              | b3 :: r3 =>
                  if utf8_lead4 b0 b1 && cont_byte b2 && cont_byte b3
                  then ((b0 - 240) * 262144 + (b1 - 128) * 4096 + (b2 - 128) * 64
                        + (b3 - 128))%N :: utf8_decode r3
                  else (56320 + b0)%N :: utf8_decode r0
              end
          end
      end
  end.

(** [os.fsdecode]: the [str] Python sees for a file name or an argument. *)
Definition fsdecode (s : string) : list N :=
  utf8_decode (N_of_ascii <$> String.list_ascii_of_string s).

(** The characters of [str.isspace], which are also those [str.strip()]
    removes and those [\s] matches. *)
Definition space_table : list N :=
  [9; 10; 11; 12; 13; 28; 29; 30; 31; 32; 133; 160; 5760; 8192; 8193; 8194; 8195;
   8196; 8197; 8198; 8199; 8200; 8201; 8202; 8232; 8233; 8239; 8287; 12288]%N.

Definition u_isspace (c : N) : bool := bool_decide (c ∈ space_table).

(** The digits zero of the 66 runs of ten consecutive decimal digits
    (category Nd), which are the characters [\d] matches and the digits
    [int] and [float] read. *)
Definition nd_zeros : list N :=
  [48; 1632; 1776; 1984; 2406; 2534; 2662; 2790; 2918; 3046; 3174; 3302; 3430;
   3558; 3664; 3792; 3872; 4160; 4240; 6112; 6160; 6470; 6608; 6784; 6800; 6992;
   7088; 7232; 7248; 42528; 43216; 43264; 43472; 43504; 43600; 44016; 65296;
   66720; 68912; 69734; 69872; 69942; 70096; 70384; 70736; 70864; 71248; 71360;
   71472; 71904; 72016; 72784; 73040; 73120; 92768; 92864; 93008; 120782; 120792;
   120802; 120812; 120822; 123200; 123632; 125264; 130032]%N.

Fixpoint decimal_in (zs : list N) (c : N) : option nat :=
  match zs with
  | [] => None
  | z :: zs' =>
      if bool_decide (z <= c < z + 10)%N then Some (N.to_nat (c - z)) else decimal_in zs' c
  end.

(** [unicodedata.decimal(c)]: the value of a decimal digit. *)
Definition u_decimal (c : N) : option nat := decimal_in nd_zeros c.

Definition u_is_decimal (c : N) : bool := bool_decide (is_Some (u_decimal c)).

Fixpoint u_lstrip (l : list N) : list N :=
  match l with
  | c :: l' => if u_isspace c then u_lstrip l' else l
  | [] => []
  end.

(** [str.strip()]. *)
Definition u_strip (l : list N) : list N := reverse (u_lstrip (reverse (u_lstrip l))).

Definition u_decimal_value (l : list N) : nat :=
  fold_left (fun acc c => 10 * acc + default 0 (u_decimal c)) l 0.

(* ================================================================== *)
(** ** Bin numbering: [find_max_numbered_dir] of split_dir.py *)

Definition newline : ascii := "010"%char.

Definition is_digit (c : ascii) : bool :=
  bool_decide (48 <= nat_of_ascii c <= 57).

Definition all_digits (l : list ascii) : bool := forallb is_digit l.

Definition decimal_value (l : list ascii) : nat :=
  fold_left (fun acc c => 10 * acc + (nat_of_ascii c - 48)) l 0.

(** [re.compile(r"^\d+$").match(name)] on the decoded name: one or more
    decimal digits, then the end of the string; Python's [$] also matches
    just before a final newline. *)
Definition matches_numbered (name : string) : bool :=
  let l := fsdecode name in
  let digits_then_end (l : list N) := bool_decide (l <> []) && forallb u_is_decimal l in
  digits_then_end l ||
  match reverse l with
  | c :: rl => bool_decide (c = 10%N) && digits_then_end (reverse rl)
  | [] => false
  end.

(** [int(name)] on the names the pattern lets through: surrounding
    whitespace is stripped, then the decimal digits are read ([ValueError]
    as [None] otherwise; signs and underscores never reach it, and a file
    name is too short for the limit on the number of digits). *)
Definition py_int (name : string) : option nat :=
  let l := u_strip (fsdecode name) in
  if bool_decide (l <> []) && forallb u_is_decimal l then Some (u_decimal_value l) else None.

(** [find_max_numbered_dir(source_dir)] over the directory's listing. *)
Definition find_max_numbered_dir (listing : list (string * node)) : nat :=
  fold_left (fun max_num '(name, c) =>
               if is_dir c && matches_numbered name then
                 match py_int name with
                 | Some num => max max_num num
                 | None => max_num
                 end
               else max_num) listing 0.

(** [dir_name = str(start_num + i + 1)] for the [i]-th bin. *)
Definition bin_dir_names (listing : list (string * node)) (nbins : nat) : list string :=
  (fun i => pretty (find_max_numbered_dir listing + i + 1)) <$> seq 0 nbins.

(** The numbering the claim describes: one past the largest subdirectory
    named by a plain decimal integer (digits only). *)
Definition plain_decimal (name : string) : bool :=
  let l := String.list_ascii_of_string name in bool_decide (l <> []) && all_digits l.

Definition spec_first_bin_number (listing : list (string * node)) : nat :=
  1 + fold_left (fun m '(name, c) =>
                   if is_dir c && plain_decimal name
                   then max m (decimal_value (String.list_ascii_of_string name)) else m)
                listing 0.

(* ================================================================== *)
(** ** RunCoordinator: the execution loops of both [main]s *)

(** What the scripts print while executing (stdout and stderr). *)
Inductive log_line :=
| LMoved (src dest : path)
| LFailed (src dest : path) (e : move_error)
| LStopping (completed total : nat)
| LDone (completed : nat).

(** How [main] ends: it returns, raises [typer.Exit(code)], raises a
    [typer.BadParameter], or lets another exception escape. *)
Inductive outcome := Returned | ExitWith (code : nat) | BadParameterRaised | Crashed.


(** One loop body: the move inside [try] finished ([StepDone]), raised an
    exception caught by [except Exception] ([StepRaised]), or something
    outside the [try] raised ([StepCrashed]). *)
Inductive step_result := StepDone | StepRaised (e : move_error) | StepCrashed.

Section ExecLoop.
Context {St Op : Type} (step : Op -> St -> step_result * St)
        (src_of dest_of : Op -> path).

(** [for src, dest, ... in operations: try: move ... except Exception as e:
    print FAILED, Stopping {completed}/{len(operations)}; raise Exit(1);
    print Moved; completed += 1], then the final summary. *)
Fixpoint exec_loop (ops : list Op) (completed total : nat) (s : St)
    : outcome * St * list log_line :=
  match ops with
  | [] => (Returned, s, [LDone completed])
  | op :: rest =>
      match step op s with
      | (StepRaised e, s') =>
          (ExitWith 1, s', [LFailed (src_of op) (dest_of op) e; LStopping completed total])
      | (StepCrashed, s') => (Crashed, s', [])
      | (StepDone, s') =>
          let '(o, s'', log) := exec_loop rest (S completed) total s' in
          (o, s'', LMoved (src_of op) (dest_of op) :: log)
      end
  end.


End ExecLoop.

Section Execute.
Variable rename_errno : path -> path -> option os_error.
Variable copy2_env : path -> path -> content -> copy_result.
Variable unlink_errno : path -> option os_error.
Variable sha256 : content -> string.
Variable mkdir_errno : path -> option os_error.

(** consolidate_files.py, lines 201-218: an operation is
    [(src, dest, renamed)]. *)
Definition consolidate_step (verify : bool) (op : path * path * bool) (w : world)
    : step_result * world :=
  match move_file rename_errno copy2_env unlink_errno sha256 op.1.1 op.1.2 verify w with
  | (inl e, w') => (StepRaised e, w')
  | (inr _, w') => (StepDone, w')
  end.

(** [dir_path.mkdir(parents=True, exist_ok=True)]: refused when a
    non-directory is in the way, or by the OS. *)
Definition mkdir (p : path) : M unit :=
  let! w := get_world in
  if bool_decide (is_Some (files w !! p)) then raise (OSError EEXIST) else
  match mkdir_errno p with
  | Some e => raise (OSError e)
  | None => put_world (mkWorld (files w) ({[p]} ∪ dirs w))
  end.

(** split_dir.py, lines 427-448: an operation is [(src, dest, dir_name)];
    the state carries [created_dirs].  The [mkdir] is outside the [try]. *)
Definition split_step (directory : path) (op : path * path * string)
    (st : world * gset path) : step_result * (world * gset path) :=
  let '(w, created_dirs) := st in
  let dir_path := path_join directory op.2 in
  let '(r, w1, created') :=
    (if bool_decide (dir_path ∈ created_dirs) then (inr tt, w, created_dirs)
     else match mkdir dir_path w with
          | (inl e, w1) => (inl e, w1, created_dirs)
          | (inr _, w1) => (inr tt, w1, {[dir_path]} ∪ created_dirs)
          end) in
  match r with
  | inl _ => (StepCrashed, (w1, created'))
  | inr _ =>
      match move_file_split rename_errno copy2_env unlink_errno op.1.1 op.1.2 w1 with
      | (inl e, w2) => (StepRaised e, (w2, created'))
      | (inr _, w2) => (StepDone, (w2, created'))
      end
  end.

End Execute.

(* ================================================================== *)
(** ** Argument handling and [main] *)

(** [is_subpath(child, parent)]: [child.relative_to(parent)] succeeds
    exactly when the parts of [parent] are a prefix of those of [child]. *)
Definition is_subpath (child parent : path) : bool :=
  bool_decide (parent `prefix_of` child).

(** A run of decimal digits at the front. *)
Fixpoint span_decimal (l : list N) : list N * list N :=
  match l with
  | c :: l' =>
      if u_is_decimal c then let '(d, r) := span_decimal l' in (c :: d, r) else ([], l)
  | [] => ([], [])
  end.

Definition size_unit_names : list string := ["B"; "KB"; "MB"; "GB"; "TB"].

(** A letter of a unit under [re.IGNORECASE]: itself, its lower case, and
    for [K] also U+212A KELVIN SIGN. *)
Definition unit_char_match (u : ascii) (c : N) : bool :=
  bool_decide (c = N_of_ascii u) || bool_decide (c = N_of_ascii u + 32)%N ||
  (bool_decide (u = "K"%char) && bool_decide (c = 8490)%N).

Definition unit_matches (unit : list N) (name : string) : bool :=
  let l := String.list_ascii_of_string name in
  bool_decide (length l = length unit) &&
  forallb (fun '(u, c) => unit_char_match u c) (zip l unit).

(** [re.compile(r"^(\d+(?:\.\d+)?)\s*(B|KB|MB|GB|TB)?$", re.IGNORECASE)
    .match(size_str.strip())]: [Some (group 1, group 2 or empty)].  The
    tokens after [\d+] cannot start with a digit, so the greedy parse is
    the only one; the stripped string ends in a non-space, so [$] can
    only match at its end. *)
Definition size_match (size_str : string) : option (list N * list N) :=
  let t := u_strip (fsdecode size_str) in
  let '(int_part, r1) := span_decimal t in
  if bool_decide (int_part = []) then None else
  let '(num, r2) :=
    match r1 with
    | c :: r =>
        if bool_decide (c = 46%N) then
          let '(frac, r') := span_decimal r in
          if bool_decide (frac = []) then (int_part, r1) else (int_part ++ c :: frac, r')
        else (int_part, r1)
    | [] => (int_part, r1)
    end in
  let unit := u_lstrip r2 in
  if bool_decide (unit = []) || existsb (unit_matches unit) size_unit_names
  then Some (num, unit) else None.

(** [str.upper()] on the characters group 2 can hold: the ASCII letters
    of the units, and U+212A, which is its own upper case. *)
Definition py_upper (l : list N) : list N :=
  (fun c => if bool_decide (97 <= c <= 122)%N then (c - 32)%N else c) <$> l.

(** The key of [SIZE_UNITS] spelt by a string ([None]: [KeyError]). *)
Definition unit_key (l : list N) : option string :=
  List.find (fun name => bool_decide ((N_of_ascii <$> String.list_ascii_of_string name) = l))
    size_unit_names.

(** [float] first replaces every decimal digit by its ASCII digit. *)
Definition ascii_num (num : list N) : list ascii :=
  (fun c => match u_decimal c with
            | Some d => ascii_of_nat (48 + d)
            | None => ascii_of_N c
            end) <$> num.

(** The listing of a directory node as [iterdir()] produces it ([None]:
    it raises, the directory being unreadable or not a directory). *)
Definition dir_listing (n : node) : option (list (string * node)) :=
  match resolve n with
  | Some (NDir true children) => Some children
  | _ => None
  end.

Section Mains.
Variable rename_errno : path -> path -> option os_error.
Variable copy2_env : path -> path -> content -> copy_result.
Variable unlink_errno : path -> option os_error.
Variable sha256 : content -> string.
Variable mkdir_errno : path -> option os_error.

Section ConsolidateMain.
(** [Path.resolve()]: absolute, symbolic links resolved. *)
Variable resolve_path : path -> path.
(** What lines 158-160 find at the target: [None] when it does not
    exist, [Some None] when it exists but [iterdir()] raises (it is not a
    directory, or it is unreadable), [Some (Some names)] otherwise. *)
Variable target_listing : option (option (list string)).

Definition target_names : list string :=
  match target_listing with Some (Some names) => names | _ => [] end.
(** The node of each source directory, [None] when it does not exist. *)
Variable source_node : path -> option node.
(** What [candidate.exists()] finds during planning. *)
Variable disk : gset path.

(** [check_path_overlap] (lines 29-49): [true] when it raises
    [typer.BadParameter]. *)
Fixpoint check_path_overlap (target_dir : path) (source_dirs : list path) : bool :=
  match source_dirs with
  | [] => false
  | src :: rest =>
      let abs_target := resolve_path target_dir in
      let abs_src := resolve_path src in
      bool_decide (abs_target = abs_src) || is_subpath abs_target abs_src ||
      is_subpath abs_src abs_target || check_path_overlap target_dir rest
  end.

(** The scanning loop of [main] (lines 167-173): a missing source is
    skipped; [get_all_files] on an existing non-directory raises
    [NotADirectoryError], which nothing catches ([None]). *)
Fixpoint scan_sources (source_dirs : list path) : option (list path) :=
  match source_dirs with
  | [] => Some []
  | sd :: rest =>
      match source_node sd with
      | None => scan_sources rest
      | Some n =>
          if is_dir n then
            match scan_sources rest with
            | Some fs => Some (get_all_files sd n ++ fs)
            | None => None
            end
          else None
      end
  end.

(** [main] of consolidate_files.py (lines 152-224). *)
Definition consolidate_main (target_dir : path) (source_dirs : list path)
    (dry_run verify : bool) (w : world) : outcome * world * list log_line :=
  if bool_decide (source_dirs = []) then (BadParameterRaised, w, []) else
  if check_path_overlap target_dir source_dirs then (BadParameterRaised, w, []) else
  if bool_decide (target_listing = Some None) then (Crashed, w, []) else
  let claimed := seed_claims target_dir target_names in
  match (if dry_run then (inr tt, w) else mkdir mkdir_errno target_dir w) with
  | (inl _, w1) => (Crashed, w1, [])
  | (inr _, w1) =>
      match scan_sources source_dirs with
      | None => (Crashed, w1, [])
      | Some files =>
          let operations := (plan_ops disk target_dir claimed files).1 in
          if bool_decide (operations = []) then (ExitWith 0, w1, []) else
          if dry_run then (ExitWith 0, w1, []) else
          exec_loop (consolidate_step rename_errno copy2_env unlink_errno sha256 verify)
            (fun op => op.1.1) (fun op => op.1.2) operations 0 (length operations) w1
      end
  end.

End ConsolidateMain.

Section SplitMain.
(** [int(float(num) * SIZE_UNITS[unit])]: [None] when the product is
    infinite and [int] raises [OverflowError]. *)
Variable float_bytes : list ascii -> string -> option Z.

(** [parse_size(size_str)] (lines 34-46): [inl ()] for the
    [typer.BadParameter], [inr None] for the [OverflowError] or the
    [KeyError] of a unit spelt with U+212A. *)
Definition parse_size (size_str : string) : unit + option Z :=
  match size_match size_str with
  | None => inl tt
  | Some (num, unit) =>
      match (if bool_decide (unit = []) then Some "B"%string else unit_key (py_upper unit)) with
      | Some key => inr (float_bytes (ascii_num num) key)
      | None => inr None
      end
  end.

(** The operations of lines 176-190: bin [i] goes to directory
    [str(start_num + i + 1)]. *)
Definition split_operations (directory : path) (start_num : nat)
    (batches : list (list entry)) : list (path * path * string) :=
  concat (imap (fun i batch =>
    let dir_name := pretty (start_num + i + 1) in
    (fun '(name, _) =>
       (path_join directory name, path_join (path_join directory dir_name) name, dir_name))
      <$> batch) batches).

(** [main] of split_dir.py (lines 115-224).  [dir_node] is the directory
    as found at the start ([None]: it does not exist); the moves act on
    the world [w]. *)
Definition split_main (directory : path) (dir_node : option node)
    (split_size : string) (dry_run : bool) (w : world)
    : outcome * (world * gset path) * list log_line :=
  match dir_node with
  | None => (ExitWith 1, (w, ∅), [])
  | Some dn =>
      if negb (is_dir dn) then (ExitWith 1, (w, ∅), []) else
      match parse_size split_size with
      | inl _ => (BadParameterRaised, (w, ∅), [])
      | inr None => (Crashed, (w, ∅), [])
      | inr (Some max_size) =>
          if bool_decide (max_size <= 0)%Z then (ExitWith 1, (w, ∅), []) else
          match dir_listing dn with
          | None => (Crashed, (w, ∅), [])
          | Some listing =>
              let start_num := find_max_numbered_dir listing in
              let files := split_scan listing in
              if bool_decide (files = []) then (ExitWith 0, (w, ∅), []) else
              let batches := (split_batches (Z.to_nat max_size) files).1 in
              let operations := split_operations directory start_num batches in
              if dry_run then (ExitWith 0, (w, ∅), []) else
              exec_loop (split_step rename_errno copy2_env unlink_errno mkdir_errno directory)
                (fun op => op.1.1) (fun op => op.1.2) operations 0 (length operations) (w, ∅)
          end
      end
  end.

End SplitMain.
End Mains.

(* ================================================================== *)
(** ** Concrete environments *)

(** A concrete cross-device environment in which [shutil.copy2] writes a
    truncated (empty) copy. *)
Definition xdev_rename : path -> path -> option os_error := fun _ _ => Some EXDEV.
Definition same_dev_rename : path -> path -> option os_error := fun _ _ => None.
Definition truncating_copy : path -> path -> content -> copy_result :=
  fun _ _ _ => CopyDone [].
Definition unlink_ok : path -> option os_error := fun _ => None.
Definition const_sha : content -> string := fun _ => "e3b0"%string.
Definition w_src : world := mkWorld {[ ["s"] := [Byte.x61; Byte.x62] ]} ∅.

(** A world-independent environment in which every system call succeeds. *)
Definition copy_ok : path -> path -> content -> copy_result := fun _ _ c => CopyDone c.
Definition mkdir_ok : path -> option os_error := fun _ => None.

(** A split directory holding a subdirectory named ["5\n"] (digit five,
    then a newline). *)
Definition newline_five_listing : list (string * node) :=
  [(String.string_of_list_ascii ["5"%char; newline], NDir true [])].

(** A directory holding a symbolic link [l] to a 3-byte regular file and a
    symbolic link [d] to a directory holding a 1-byte file [f]. *)
Definition linked_listing : list (string * node) :=
  [("l"%string, NLink (Some (NReg 3)));
   ("d"%string, NLink (Some (NDir true [("f"%string, NReg 1)])))].

(** [float(num) * SIZE_UNITS[unit]] on the digit strings used below,
    without fraction or overflow. *)
Definition small_float_bytes (num : list ascii) (unit : string) : option Z :=
  Some (Z.of_nat (decimal_value num) *
        (if bool_decide (unit = "KB"%string) then 1024 else 1))%Z.

(** A byte string given by its byte values (UTF-8 text, or any bytes). *)
Definition of_bytes (l : list nat) : string := String.string_of_list_ascii (ascii_of_nat <$> l).



Definition w_d : world :=
  mkWorld {[ ["d"; "a"]%string := [Byte.x61; Byte.x62];
             ["d"; "b"]%string := [Byte.x61; Byte.x62; Byte.x63] ]} {[ ["d"%string] ]}.

(** A copy that fails after writing one byte to the destination. *)
Definition partial_copy : path -> path -> content -> copy_result :=
  fun _ _ _ => CopyFailed EACCES (Some [Byte.x61]).

(** Two 1-byte files [s/a] and [s/b], and the directories [s] and [t]. *)
Definition w_ab : world :=
  mkWorld {[ ["s"; "a"]%string := [Byte.x61]; ["s"; "b"]%string := [Byte.x62] ]}
          {[ ["s"%string]; ["t"%string] ]}.

(** The decimal value of digits read after the value [acc]. *)
Definition dv_from (acc : nat) (l : list ascii) : nat :=
  fold_left (fun acc c => 10 * acc + (nat_of_ascii c - 48)) l acc.

(** The first-fit outcome: no two bins fit together. *)
Definition bins_not_mergeable (cap : nat) (sizes : list nat) : Prop :=
  forall i j si sj, i < j -> sizes !! i = Some si -> sizes !! j = Some sj -> cap < si + sj.

(* ================================================================== *)
(** * Theorems *)

Ltac unfold_m :=
  repeat unfold move_file, move_file_split, exists_, compute_sha256, st_size,
    read_file, try_rename, copy2, unlink, bind, ret, raise, get_world,
    put_world in *.

Ltac crush_m :=
  unfold_m; simpl in *;
  repeat (case_match; simplify_eq/=; try done).

Lemma path_exists_false_lookup p w :
  path_exists p w = false -> files w !! p = None.
Proof.
  unfold path_exists. intros H. apply orb_false_iff in H as [H _].
  apply bool_decide_eq_false in H. by apply eq_None_not_Some.
Qed.

Section SafeMoveProofs.
Context (rename_errno : path -> path -> option os_error)
        (copy2_env : path -> path -> content -> copy_result)
        (unlink_errno : path -> option os_error)
        (sha256 : content -> string).

Lemma move_file_dest_exists src dest verify w :
  path_exists dest w = true ->
  move_file rename_errno copy2_env unlink_errno sha256 src dest verify w
  = (inl FileExists, w).
Proof. intros H. unfold_m. simpl. by rewrite H. Qed.

Lemma move_file_split_dest_exists src dest w :
  path_exists dest w = true ->
  move_file_split rename_errno copy2_env unlink_errno src dest w
  = (inl FileExists, w).
Proof. intros H. unfold_m. simpl. by rewrite H. Qed.

(** Shared core of C1: a mismatch error restores the world. *)
Lemma move_file_mismatch_restores src dest verify w e w' :
  move_file rename_errno copy2_env unlink_errno sha256 src dest verify w = (inl e, w') ->
  e = SizeMismatch \/ e = ChecksumMismatch ->
  w' = w /\ files w !! dest = None.
Proof.
  intros Hm He. destruct w as [fs ds].
  unfold_m. simpl in *.
  destruct (path_exists dest _) eqn:Hex; [simplify_eq/=; by destruct He|].
  apply path_exists_false_lookup in Hex. simpl in Hex.
  repeat (case_match; simplify_eq/=; try (destruct He; discriminate)).
  all: by rewrite delete_insert_id.
Qed.

Lemma move_file_split_mismatch_restores src dest w w' :
  move_file_split rename_errno copy2_env unlink_errno src dest w = (inl SizeMismatch, w') ->
  w' = w /\ files w !! dest = None.
Proof.
  intros Hm. destruct w as [fs ds].
  unfold_m. simpl in *.
  destruct (path_exists dest _) eqn:Hex; [simplify_eq/=|].
  apply path_exists_false_lookup in Hex. simpl in Hex.
  repeat (case_match; simplify_eq/=).
  all: by rewrite delete_insert_id.
Qed.

Lemma move_file_verify_rename_ok src dest w d :
  path_exists dest w = false ->
  files w !! src = Some d ->
  rename_errno src dest = None ->
  move_file rename_errno copy2_env unlink_errno sha256 src dest true w
  = (inr tt, mkWorld (<[dest:=d]> (delete src (files w))) (dirs w)).
Proof.
  intros Hex Hsrc Hren. destruct w as [fs ds].
  unfold_m. simpl in *. rewrite Hex. simpl.
  rewrite Hsrc. simpl. rewrite Hsrc, Hren. reflexivity.
Qed.

End SafeMoveProofs.

(** ** NameResolver *)

Lemma string_length_app (a b : string) :
  String.length (a +:+ b) = String.length a + String.length b.
Proof. induction a; simpl; auto. Qed.

Lemma string_app_cancel_r (a b s : string) : a +:+ s = b +:+ s -> a = b.
Proof.
  intros H.
  assert (Hl : String.length a = String.length b).
  { apply (f_equal String.length) in H. rewrite !string_length_app in H. lia. }
  revert b H Hl. induction a as [|x a IH]; intros [|y b] H Hl; simpl in *;
    try discriminate; auto.
  injection H as -> H. f_equal. apply IH; auto.
Qed.

Lemma path_join_inj d a b : path_join d a = path_join d b -> a = b.
Proof. unfold path_join. intros H. apply app_inv_head in H. by injection H. Qed.

Lemma numbered_candidate_inj t stem suffix n m :
  numbered_candidate t stem suffix n = numbered_candidate t stem suffix m -> n = m.
Proof.
  unfold numbered_candidate. intros H. apply path_join_inj in H.
  apply (inj (String.app stem)) in H. apply (inj (String.app "_")) in H.
  apply string_app_cancel_r in H. by apply (inj pretty) in H.
Qed.

Section Probe.
Context (disk claimed : gset path) (t : path) (stem suffix : string).

Lemma probe_not_taken fuel n c :
  probe disk claimed t stem suffix fuel n = Some c -> taken disk claimed c = false.
Proof.
  revert n. induction fuel as [|fuel IH]; intros n; simpl; [done|].
  case_match; [apply IH|]. intros [= <-]. done.
Qed.

Lemma probe_none_taken fuel n :
  probe disk claimed t stem suffix fuel n = None ->
  list_to_set (numbered_candidate t stem suffix <$> seq n fuel) ⊆@{gset path} disk ∪ claimed.
Proof.
  revert n. induction fuel as [|fuel IH]; intros n; simpl; [set_solver|].
  destruct (taken _ _ _) eqn:Ht; [|done]. intros Hp.
  unfold taken in Ht. apply orb_true_iff in Ht.
  rewrite !bool_decide_eq_true in Ht. specialize (IH _ Hp). set_solver.
Qed.

Lemma probe_enough n :
  probe disk claimed t stem suffix (size disk + size claimed + 1) n <> None.
Proof.
  intros Hp. apply probe_none_taken in Hp.
  apply subseteq_size in Hp.
  rewrite size_list_to_set in Hp.
  2:{ apply NoDup_fmap_2_strong; [|apply NoDup_seq].
      intros x y _ _. apply numbered_candidate_inj. }
  rewrite length_fmap, length_seq in Hp.
  rewrite size_union_alt in Hp.
  pose proof (subseteq_size (claimed ∖ disk) claimed ltac:(set_solver)). lia.
Qed.

End Probe.

Lemma get_unique_name_fresh disk claimed t name :
  let '(c, claimed') := get_unique_name disk claimed t name in
  (c ∉ disk) /\ (c ∉ claimed) /\ claimed' = {[c]} ∪ claimed.
Proof.
  unfold get_unique_name.
  destruct (taken disk claimed (path_join t name)) eqn:H0.
  - destruct (probe _ _ _ _ _ _ _) as [c|] eqn:Hp.
    + apply probe_not_taken in Hp. unfold taken in Hp.
      apply orb_false_iff in Hp as [H1 H2].
      apply bool_decide_eq_false in H1, H2. simpl. auto.
    + exfalso. by eapply probe_enough.
  - unfold taken in H0. apply orb_false_iff in H0 as [H1 H2].
    apply bool_decide_eq_false in H1, H2. auto.
Qed.

Lemma plan_ops_fresh disk t files claimed :
  let '(ops, claimed') := plan_ops disk t claimed files in
  NoDup (op_dest <$> ops) /\
  (forall d, d ∈ op_dest <$> ops -> (d ∉ claimed) /\ (d ∉ disk)).
Proof.
  revert claimed. induction files as [|f files IH]; intros claimed; cbn [plan_ops].
  - split; [constructor | set_solver].
  - pose proof (get_unique_name_fresh disk claimed t (path_name f)) as Hg.
    destruct (get_unique_name _ _ _ _) as [c cl'] eqn:Hgu.
    destruct Hg as (Hd & Hc & ->).
    specialize (IH ({[c]} ∪ claimed)).
    destruct (plan_ops _ _ _ _) as [ops cl''] eqn:Hpl.
    destruct IH as [IHnd IHf]. cbn [fmap list_fmap]. split.
    + constructor; [|done]. intros Hin. apply IHf in Hin. set_solver.
    + intros d Hin. apply elem_of_cons in Hin as [->|Hin]; [auto|].
      apply IHf in Hin. set_solver.
Qed.

(** ** BinPacker *)

Lemma first_fit_shift m sz bs k :
  first_fit m sz bs (S k) = S <$> first_fit m sz bs k.
Proof.
  revert k. induction bs as [|b bs IH]; intros k; simpl; [done|].
  case_bool_decide; [done|]. apply IH.
Qed.

Lemma first_fit_spec m sz bs i :
  first_fit m sz bs 0 = Some i -> exists b, bs !! i = Some b /\ b + sz <= m.
Proof.
  revert i. induction bs as [|b bs IH]; intros i; simpl; [done|].
  case_bool_decide; [intros [= <-]; eauto|].
  rewrite first_fit_shift. intros Hf.
  destruct (first_fit m sz bs 0) as [j|] eqn:Hj; simplify_eq/=. auto.
Qed.

Lemma bsum_app b e : bsum (b ++ [e]) = bsum b + e.2.
Proof. unfold bsum. rewrite sum_list_with_app. simpl. lia. Qed.

Lemma fmap_bsum_alter e i (bs : list (list entry)) :
  bsum <$> alter (fun b => b ++ [e]) i bs = alter (fun s => s + e.2) i (bsum <$> bs).
Proof.
  revert i. induction bs as [|b bs IH]; intros [|i]; simpl; try done.
  - by rewrite bsum_app.
  - f_equal. apply IH.
Qed.

Lemma concat_alter_snoc e i (bs : list (list entry)) :
  i < length bs ->
  concat (alter (fun b => b ++ [e]) i bs) ≡ₚ concat bs ++ [e].
Proof.
  revert i. induction bs as [|b bs IH]; intros [|i] Hi; simpl in *; try lia.
  - rewrite <-!(assoc_L (++)). apply Permutation_app_head, Permutation_app_comm.
  - rewrite <-(assoc_L (++)). apply Permutation_app_head, IH. lia.
Qed.

(** A bin of the output: within capacity, or a lone oversized entry. *)
Definition good_bin (cap : nat) (b : list entry) : Prop :=
  bsum b <= cap \/ exists e, b = [e] /\ cap < e.2.

Definition pack_inv (cap : nat) (done_ : list entry) (st : list (list entry) * list nat) : Prop :=
  st.2 = bsum <$> st.1 /\ concat st.1 ≡ₚ done_ /\ Forall (good_bin cap) st.1.

Lemma pack_step_inv cap done_ st e :
  pack_inv cap done_ st -> pack_inv cap (done_ ++ [e]) (pack_step cap st e).
Proof.
  destruct st as [batches sizes]. unfold pack_inv, pack_step; simpl.
  intros (Hs & Hp & Hg).
  assert (Hnew : (batches ++ [[e]], sizes ++ [e.2]).2 = bsum <$> (batches ++ [[e]], sizes ++ [e.2]).1
     /\ concat (batches ++ [[e]], sizes ++ [e.2]).1 ≡ₚ done_ ++ [e]).
  { simpl. rewrite fmap_app, Hs, concat_app. simpl. unfold bsum; simpl.
    split; [f_equal; f_equal; lia|]. by apply Permutation_app_tail. }
  case_bool_decide as Hbig.
  - destruct Hnew as [H1 H2]. split_and!; [done|done|].
    apply Forall_app; split; [done|]. constructor; [|done]. right. eauto.
  - destruct (first_fit cap e.2 sizes 0) as [i|] eqn:Hf.
    + apply first_fit_spec in Hf as (b & Hb & Hfit).
      rewrite Hs in Hb. apply list_lookup_fmap_Some_1 in Hb as (bi & -> & Hbi).
      simpl. split_and!.
      * by rewrite Hs, fmap_bsum_alter.
      * rewrite concat_alter_snoc; [by apply Permutation_app_tail|].
        by eapply lookup_lt_Some.
      * apply Forall_alter; [done|]. intros x Hx _. rewrite Hbi in Hx.
        injection Hx as <-. left. rewrite bsum_app. lia.
    + destruct Hnew as [H1 H2]. split_and!; [done|done|].
      apply Forall_app; split; [done|]. constructor; [|done]. left.
      unfold bsum; simpl. lia.
Qed.

Lemma pack_fold_inv cap files done_ st :
  pack_inv cap done_ st -> pack_inv cap (done_ ++ files) (fold_left (pack_step cap) files st).
Proof.
  revert done_ st. induction files as [|e files IH]; intros done_ st H; simpl.
  - by rewrite app_nil_r.
  - rewrite cons_middle, (assoc_L (++)). apply IH. by apply pack_step_inv.
Qed.

Lemma pack_inv_final cap files : pack_inv cap files (pack cap files).
Proof.
  unfold pack. replace files with ([] ++ files) at 1 by done.
  apply pack_fold_inv. split_and!; simpl; done.
Qed.

Lemma good_bin_oversized_alone cap b e :
  good_bin cap b -> e ∈ b -> cap < e.2 -> b = [e].
Proof.
  intros [Hle | (e' & -> & He')] Hin Hbig.
  - pose proof (sum_list_with_in e snd b Hin). unfold bsum in Hle. lia.
  - by apply list_elem_of_singleton in Hin as ->.
Qed.

(** Sorting. *)
Definition size_ge (x y : entry) : Prop := y.2 <= x.2.

Lemma insert_desc_perm x l : insert_desc x l ≡ₚ x :: l.
Proof.
  induction l as [|y l IH]; simpl; [done|].
  case_bool_decide; [|done]. rewrite IH. constructor.
Qed.

Lemma insert_desc_sorted x l :
  StronglySorted size_ge l -> StronglySorted size_ge (insert_desc x l).
Proof.
  induction l as [|y l IH]; simpl; intros Hs.
  - repeat constructor.
  - apply StronglySorted_inv in Hs as [Hs Hy].
    case_bool_decide as Hxy.
    + constructor; [by apply IH|].
      eapply Permutation_Forall; [symmetry; apply insert_desc_perm|].
      constructor; [done|done].
    + constructor; [by constructor|]. constructor; [unfold size_ge; lia|].
      eapply Forall_impl; [apply Hy|]. unfold size_ge. intros z Hz. lia.
Qed.

Lemma filter_all_smaller (sz : nat) (l : list entry) :
  Forall (fun z => z.2 < sz) l -> filter (fun y => y.2 = sz) l = [].
Proof.
  induction 1 as [|z l Hz _ IH]; [done|].
  rewrite filter_cons. case_decide; [lia|done].
Qed.

Lemma insert_desc_filter (sz : nat) x l :
  StronglySorted size_ge l ->
  filter (fun y => y.2 = sz) (insert_desc x l)
  = filter (fun y => y.2 = sz) l ++ filter (fun y => y.2 = sz) [x].
Proof.
  induction l as [|y l IH]; simpl; intros Hs; [done|].
  apply StronglySorted_inv in Hs as [Hs Hy].
  case_bool_decide as Hxy.
  - rewrite !filter_cons. case_decide; rewrite IH by done; done.
  - rewrite !filter_cons, filter_nil.
    destruct (decide (x.2 = sz)) as [Hx|Hx].
    + assert (Hnil : filter (fun y => y.2 = sz) l = []).
      { apply filter_all_smaller.
        eapply Forall_impl; [apply Hy|]. unfold size_ge. intros z Hz. lia. }
      rewrite decide_False by lia. by rewrite Hnil.
    + by rewrite app_nil_r.
Qed.

Lemma sort_desc_fold_props l acc :
  StronglySorted size_ge acc ->
  let r := fold_left (fun acc x => insert_desc x acc) l acc in
  r ≡ₚ acc ++ l /\ StronglySorted size_ge r /\
  (forall sz, filter (fun y => y.2 = sz) r
              = filter (fun y => y.2 = sz) acc ++ filter (fun y => y.2 = sz) l).
Proof.
  revert acc. induction l as [|x l IH]; intros acc Hs; simpl.
  - rewrite !app_nil_r. split_and!; [done|done|]. intros sz.
    by rewrite filter_nil, app_nil_r.
  - destruct (IH (insert_desc x acc)) as (Hp & Hs' & Hf); [by apply insert_desc_sorted|].
    split_and!; [|done|].
    + rewrite Hp, insert_desc_perm. simpl. apply Permutation_middle.
    + intros sz. rewrite Hf, insert_desc_filter by done.
      rewrite <-(assoc_L (++)). f_equal. by rewrite <-filter_app.
Qed.

Lemma sort_desc_props l :
  sort_desc l ≡ₚ l /\ StronglySorted size_ge (sort_desc l) /\
  (forall sz, filter (fun y => y.2 = sz) (sort_desc l) = filter (fun y => y.2 = sz) l).
Proof.
  destruct (sort_desc_fold_props l [] ltac:(constructor)) as (Hp & Hs & Hf).
  split_and!; [exact Hp|exact Hs|]. intros sz. apply (Hf sz).
Qed.

(** Refinement of the packing loop by the spec's first-fit placement. *)
Lemma place_first_fit_refines cap e bins :
  match first_fit cap e.2 (total <$> bins) 0 with
  | Some i => members <$> spec_place_first_fit cap e bins
                = alter (fun b => b ++ [e]) i (members <$> bins) /\
              total <$> spec_place_first_fit cap e bins
                = alter (fun s => s + e.2) i (total <$> bins)
  | None => members <$> spec_place_first_fit cap e bins = (members <$> bins) ++ [[e]] /\
            total <$> spec_place_first_fit cap e bins = (total <$> bins) ++ [e.2]
  end.
Proof.
  induction bins as [|b bins IH]; [done|].
  rewrite fmap_cons. cbn [first_fit spec_place_first_fit].
  case_bool_decide; [done|].
  rewrite first_fit_shift.
  destruct (first_fit cap e.2 (total <$> bins) 0); cbn [fmap option_fmap option_map];
    destruct IH as [H1 H2]; rewrite !fmap_cons, H1, H2; done.
Qed.

Lemma pack_refines_spec cap l bins :
  fold_left (pack_step cap) l (members <$> bins, total <$> bins)
  = (members <$> fold_left (spec_pack_step cap) l bins,
     total <$> fold_left (spec_pack_step cap) l bins).
Proof.
  revert bins. induction l as [|e l IH]; intros bins; simpl; [done|].
  rewrite <-IH. f_equal. unfold pack_step, spec_pack_step.
  case_bool_decide.
  - by rewrite !fmap_app.
  - pose proof (place_first_fit_refines cap e bins) as Hr.
    destruct (first_fit _ _ _ _); destruct Hr as [-> ->]; done.
Qed.

(** ** Execution loop *)

Section ExecProofs.
Context {St Op : Type} (step : Op -> St -> step_result * St)
        (src_of dest_of : Op -> path).




End ExecProofs.


(** The scanners as the Python loop body reads: a directory (after
    following links) is listed, else a regular file is collected. *)
Lemma scan_node_unfold p n :
  scan_node p n =
    if is_dir n then
      match dir_listing n with
      | Some cs => flat_map (fun '(name, c) => scan_node (path_join p name) c) cs
      | None => []
      end
    else if is_file n then [p] else [].
Proof.
  revert p n. fix IH 2. intros p n.
  destruct n as [sz|r cs|[t|]|]; unfold is_dir, is_file, dir_listing in *; simpl.
  - done.
  - destruct r; [|done]. clear IH.
    induction cs as [|[nm c] cs IHcs]; simpl; [done|]. by rewrite IHcs.
  - exact (IH p t).
  - done.
  - done.
Qed.

Lemma check_path_overlap_true resolve_path target_dir source_dirs src :
  src ∈ source_dirs ->
  (resolve_path target_dir = resolve_path src \/
   resolve_path src `prefix_of` resolve_path target_dir \/
   resolve_path target_dir `prefix_of` resolve_path src) ->
  check_path_overlap resolve_path target_dir source_dirs = true.
Proof.
  induction source_dirs as [|s0 rest IH]; intros Hin Hrel.
  - by apply elem_of_nil in Hin.
  - simpl. apply elem_of_cons in Hin as [->|Hin].
    + unfold is_subpath. rewrite !orb_true_iff, !bool_decide_eq_true. tauto.
    + rewrite (IH Hin Hrel). by rewrite !orb_true_r.
Qed.

(* ================================================================== *)
(** * The claims *)


(** Claim C1. When [move_file] (either script) takes the cross-device copy
    fallback and fails with a size mismatch, or (consolidate, with
    [verify]) a checksum mismatch, the partial destination has been
    deleted and the world is exactly as before the call: the destination
    is absent and the source keeps its content. *)
Theorem move_mismatch_leaves_world_unchanged
    rename_errno copy2_env unlink_errno sha256 src dest verify w e w' :
  (move_file rename_errno copy2_env unlink_errno sha256 src dest verify w = (inl e, w') ->
   (e = SizeMismatch \/ e = ChecksumMismatch) ->
   w' = w /\ files w' !! dest = None /\ files w' !! src = files w !! src) /\
  (move_file_split rename_errno copy2_env unlink_errno src dest w = (inl SizeMismatch, w') ->
   w' = w /\ files w' !! dest = None /\ files w' !! src = files w !! src).
Proof.
  split.
  - intros Hm He.
    destruct (move_file_mismatch_restores _ _ _ _ _ _ _ _ _ _ Hm He) as [-> Hd].
    auto.
  - intros Hm.
    destruct (move_file_split_mismatch_restores _ _ _ _ _ _ _ Hm) as [-> Hd].
    auto.
Qed.

Lemma move_mismatch_leaves_world_unchanged_witness :
  move_file xdev_rename truncating_copy unlink_ok const_sha ["s"] ["d"] true w_src
    = (inl SizeMismatch, w_src) /\
  move_file_split xdev_rename truncating_copy unlink_ok ["s"] ["d"] w_src
    = (inl SizeMismatch, w_src) /\
  (w_src = w_src /\ files w_src !! ["d"] = None /\ files w_src !! ["s"] = files w_src !! ["s"]) /\
  (w_src = w_src /\ files w_src !! ["d"] = None /\ files w_src !! ["s"] = files w_src !! ["s"]).
Proof.
  split; [vm_compute; reflexivity|].
  split; [vm_compute; reflexivity|].
  split.
  - apply (proj1 (move_mismatch_leaves_world_unchanged xdev_rename truncating_copy
             unlink_ok const_sha ["s"] ["d"] true w_src SizeMismatch w_src));
      [vm_compute; reflexivity | left; reflexivity].
  - apply (proj2 (move_mismatch_leaves_world_unchanged xdev_rename truncating_copy
             unlink_ok const_sha ["s"] ["d"] true w_src SizeMismatch w_src)).
    vm_compute; reflexivity.
Defined.

(** Claim C2. If [dest] exists when [move_file] (either script) is called,
    the call raises [FileExistsError] and leaves the whole world (source
    and destination included) unchanged. *)
Theorem move_dest_exists_noop
    rename_errno copy2_env unlink_errno sha256 src dest verify w :
  path_exists dest w = true ->
  move_file rename_errno copy2_env unlink_errno sha256 src dest verify w = (inl FileExists, w) /\
  move_file_split rename_errno copy2_env unlink_errno src dest w = (inl FileExists, w).
Proof.
  intros H. split.
  - by apply move_file_dest_exists.
  - by apply move_file_split_dest_exists.
Qed.

Lemma move_dest_exists_noop_witness :
  path_exists ["s"] w_src = true /\
  (move_file same_dev_rename truncating_copy unlink_ok const_sha ["x"] ["s"] false w_src
     = (inl FileExists, w_src) /\
   move_file_split same_dev_rename truncating_copy unlink_ok ["x"] ["s"] w_src
     = (inl FileExists, w_src)).
Proof.
  split; [vm_compute; reflexivity|].
  apply move_dest_exists_noop. vm_compute; reflexivity.
Defined.

(** Claim C10. In consolidate_files.py, [move_file src dest True] whose
    rename succeeds returns normally with the file renamed, whatever the
    checksums are: the result does not depend on [sha256] at all. *)
Theorem move_file_verify_same_fs_no_compare
    rename_errno copy2_env unlink_errno sha256 sha256' src dest w d :
  path_exists dest w = false ->
  files w !! src = Some d ->
  rename_errno src dest = None ->
  move_file rename_errno copy2_env unlink_errno sha256 src dest true w
  = (inr tt, mkWorld (<[dest:=d]> (delete src (files w))) (dirs w)) /\
  move_file rename_errno copy2_env unlink_errno sha256 src dest true w
  = move_file rename_errno copy2_env unlink_errno sha256' src dest true w.
Proof.
  intros Hex Hsrc Hren.
  rewrite !(move_file_verify_rename_ok _ _ _ _ _ _ _ d Hex Hsrc Hren). done.
Qed.

Lemma move_file_verify_same_fs_no_compare_witness :
  move_file same_dev_rename truncating_copy unlink_ok const_sha ["s"] ["d"] true w_src
  = (inr tt, mkWorld (<[["d"]:=[Byte.x61; Byte.x62]]> (delete ["s"] (files w_src))) (dirs w_src)) /\
  move_file same_dev_rename truncating_copy unlink_ok const_sha ["s"] ["d"] true w_src
  = move_file same_dev_rename truncating_copy unlink_ok (fun _ => "0"%string) ["s"] ["d"] true w_src.
Proof.
  apply (move_file_verify_same_fs_no_compare same_dev_rename truncating_copy unlink_ok
           const_sha (fun _ => "0"%string) ["s"] ["d"] w_src [Byte.x61; Byte.x62]);
    vm_compute; reflexivity.
Defined.

(** Spec example of section 8: two [photo.jpg] from two source trees. *)
Example plan_two_photos :
  op_dest <$> (plan_ops ∅ ["t"] (seed_claims ["t"] [])
                 [["a"; "photo.jpg"]; ["b"; "photo.jpg"]]).1
  = [["t"; "photo.jpg"]; ["t"; "photo_1.jpg"]].
Proof. vm_compute. reflexivity. Qed.

(** Claim C3. Every call of [get_unique_name] returns a path that neither
    exists on disk nor is already claimed, and registers it in the claim
    set; hence within one consolidation run the planned destinations are
    pairwise distinct, distinct from every entry of the target directory
    seeded at the start of the run, and distinct from every existing path. *)
Theorem resolver_destinations_distinct (disk : gset path) (t : path)
    (entries : list string) (files : list path) :
  (forall claimed name,
     let '(c, claimed') := get_unique_name disk claimed t name in
     (c ∉ disk) /\ (c ∉ claimed) /\ claimed' = {[c]} ∪ claimed) /\
  (let '(ops, _) := plan_ops disk t (seed_claims t entries) files in
   NoDup (op_dest <$> ops) /\
   (forall d, d ∈ op_dest <$> ops ->
      (forall e, e ∈ entries -> d <> path_join t e) /\ (d ∉ disk))).
Proof.
  split; [intros claimed name; apply get_unique_name_fresh|].
  pose proof (plan_ops_fresh disk t files (seed_claims t entries)) as H.
  destruct (plan_ops _ _ _ _) as [ops cl]. destruct H as [Hnd Hf].
  split; [done|]. intros d Hd. destruct (Hf d Hd) as [Hs Hdisk].
  split; [|done]. intros e He ->. apply Hs.
  unfold seed_claims. apply elem_of_list_to_set, list_elem_of_fmap. eauto.
Qed.

(** Claim C4. The packing of split_dir.py is a partition of the scanned
    files (as a multiset: [concat] of the bins is a permutation of the
    input); [batch_sizes] holds each bin's total; every bin is either
    within capacity or a single oversized entry; and an oversized entry is
    alone in its bin. (No hypothesis on the capacity is needed.) *)
Theorem split_batches_partition (cap : nat) (files : list entry) :
  let batches := (split_batches cap files).1 in
  concat batches ≡ₚ files /\
  (split_batches cap files).2 = bsum <$> batches /\
  (forall b, b ∈ batches -> bsum b <= cap \/ exists e, b = [e] /\ cap < e.2) /\
  (forall b e, b ∈ batches -> e ∈ b -> cap < e.2 -> b = [e]).
Proof.
  unfold split_batches.
  destruct (pack_inv_final cap (sort_desc files)) as (Hs & Hp & Hg).
  destruct (sort_desc_props files) as (Hperm & _ & _).
  simpl. split_and!.
  - by rewrite Hp.
  - done.
  - intros b Hb. rewrite Forall_forall in Hg. by apply Hg.
  - intros b e Hb He Hbig. eapply good_bin_oversized_alone; [|done|done].
    rewrite Forall_forall in Hg. by apply Hg.
Qed.

(** Claim C6. The packer is first-fit-decreasing: the sort orders by size
    descending and is stable (per size, the scan order is kept); the
    packing equals the spec's placement (oversized entries get a new bin,
    others go to the first bin in creation order whose total plus the size
    fits, else a new bin); and the spec's example gives {a,c} (10) and
    {b,d} (8). *)
Theorem split_batches_first_fit_decreasing (cap : nat) (files : list entry) :
  (sort_desc files ≡ₚ files /\
   StronglySorted size_ge (sort_desc files) /\
   (forall sz, filter (fun y => y.2 = sz) (sort_desc files)
               = filter (fun y => y.2 = sz) files)) /\
  split_batches cap files
    = (members <$> spec_pack cap (sort_desc files),
       total <$> spec_pack cap (sort_desc files)) /\
  split_batches 10 [("a", 6); ("b", 5); ("c", 4); ("d", 3)]%string
    = ([[("a", 6); ("c", 4)]; [("b", 5); ("d", 3)]]%string, [10; 8]).
Proof.
  split_and!.
  - apply sort_desc_props.
  - apply sort_desc_props.
  - apply sort_desc_props.
  - unfold split_batches, pack, spec_pack.
    apply (pack_refines_spec cap (sort_desc files) []).
  - vm_compute. reflexivity.
Qed.


(** Claim C7 (numbering).  The pattern [^\d+$] also accepts a name with a
    final newline, and [int] strips it: a subdirectory named ["5\n"],
    which is not a plain decimal integer, moves the numbering of the new
    bins to 6 and 7, where the claim's rule starts at 1. *)
Theorem numbering_counts_newline_dir :
  bin_dir_names newline_five_listing 2 = ["6"; "7"]%string /\
  spec_first_bin_number newline_five_listing = 1 /\
  plain_decimal (String.string_of_list_ascii ["5"%char; newline]) = false /\
  matches_numbered (String.string_of_list_ascii ["5"%char; newline]) = true.
Proof. vm_compute. repeat split. Qed.

(** Claim C8, counterexample: the recursive scan collects the symbolic
    link [l] to a regular file and traverses the link [d] to a directory;
    the shallow scan of split collects [l] with its target's size. *)
Theorem scan_follows_symlinks_example :
  get_all_files ["src"%string] (NDir true linked_listing)
    = [["src"; "l"]; ["src"; "d"; "f"]]%string /\
  split_scan linked_listing = [("l"%string, 3)].
Proof. vm_compute. split; reflexivity. Qed.

(** Claim C8 (amended).  Both scans classify an entry by what it resolves
    to: a symbolic link is handled exactly as its target would be, under
    the link's own name (a link to a regular file is collected, a link to
    a directory is traversed by the recursive scan); dangling links and
    special files are excluded; the shallow scan collects regular files
    only, with their sizes. *)
Theorem scan_classifies_by_target :
  (forall p t, scan_node p (NLink (Some t)) = scan_node p t) /\
  (forall d name t rest,
     get_all_files d (NDir true ((name, NLink (Some t)) :: rest))
     = get_all_files d (NDir true ((name, t) :: rest))) /\
  (forall name t rest,
     split_scan ((name, NLink (Some t)) :: rest) = split_scan ((name, t) :: rest)) /\
  (forall p sz, scan_node p (NReg sz) = [p]) /\
  (forall p r cs, scan_node p (NDir r cs) =
     if r then flat_map (fun '(name, c) => scan_node (path_join p name) c) cs else []) /\
  (forall p, scan_node p (NLink None) = [] /\ scan_node p NSpecial = []) /\
  (forall name sz rest, split_scan ((name, NReg sz) :: rest) = (name, sz) :: split_scan rest) /\
  (forall name rest, split_scan ((name, NLink None) :: rest) = split_scan rest /\
                     split_scan ((name, NSpecial) :: rest) = split_scan rest) /\
  (forall name r cs rest, split_scan ((name, NDir r cs) :: rest) = split_scan rest).
Proof.
  split; [done|]. split; [done|]. split; [done|]. split; [done|].
  split.
  { intros p r cs. rewrite scan_node_unfold. unfold is_dir, dir_listing. simpl.
    by destruct r. }
  by repeat split.
Qed.




(* ================================================================== *)
(** * Further properties of the code *)

Section MoveFileFacts.
Context (rename_errno : path -> path -> option os_error)
        (copy2_env : path -> path -> content -> copy_result)
        (unlink_errno : path -> option os_error)
        (sha256 : content -> string).

Lemma move_file_error_frame src dest verify w e w' :
  move_file rename_errno copy2_env unlink_errno sha256 src dest verify w = (inl e, w') ->
  dirs w' = dirs w /\ (forall p, p <> dest -> files w' !! p = files w !! p).
Proof.
  intros Hm. destruct w as [fs ds].
  unfold_m. simpl in *.
  destruct (path_exists dest _) eqn:Hex; [simplify_eq/=; done|].
  apply path_exists_false_lookup in Hex. simpl in Hex.
  repeat (case_match; simplify_eq/=); split; try done; intros p Hp;
    rewrite ?lookup_delete_ne, ?lookup_insert_ne by done; done.
Qed.

Lemma move_file_success_frame src dest verify w w' :
  move_file rename_errno copy2_env unlink_errno sha256 src dest verify w = (inr tt, w') ->
  exists d d', files w !! src = Some d /\ files w !! dest = None /\
    files w' = <[dest:=d']> (delete src (files w)) /\ dirs w' = dirs w /\
    length d' = length d /\ (verify = true -> sha256 d' = sha256 d).
Proof.
  intros Hm. destruct w as [fs ds].
  unfold_m. simpl in *.
  destruct (path_exists dest _) eqn:Hex; [simplify_eq/=; done|].
  apply path_exists_false_lookup in Hex. simpl in Hex.
  repeat (case_match; simplify_eq/=).
  all: try (eexists _, _; split_and!; [done|done|done|done|done|done]).
  all: try (assert (src <> dest) by congruence;
            rewrite ?lookup_insert_ne in * by done; simplify_eq/=).
  all: try (rewrite lookup_insert_eq in *; simplify_eq/=).
  all: repeat match goal with
         | H : bool_decide (_ <> _) = false |- _ =>
             apply bool_decide_eq_false in H; apply dec_stable in H; simplify_eq/=
         end.
  all: eexists _, _; split_and!; [done|done|by rewrite delete_insert_ne|done|done|done].
Qed.

Lemma move_file_split_error_frame src dest w e w' :
  move_file_split rename_errno copy2_env unlink_errno src dest w = (inl e, w') ->
  dirs w' = dirs w /\ (forall p, p <> dest -> files w' !! p = files w !! p).
Proof.
  intros Hm. destruct w as [fs ds].
  unfold_m. simpl in *.
  destruct (path_exists dest _) eqn:Hex; [simplify_eq/=; done|].
  apply path_exists_false_lookup in Hex. simpl in Hex.
  repeat (case_match; simplify_eq/=); split; try done; intros p Hp;
    rewrite ?lookup_delete_ne, ?lookup_insert_ne by done; done.
Qed.

Lemma move_file_split_success_frame src dest w w' :
  move_file_split rename_errno copy2_env unlink_errno src dest w = (inr tt, w') ->
  exists d d', files w !! src = Some d /\ files w !! dest = None /\
    files w' = <[dest:=d']> (delete src (files w)) /\ dirs w' = dirs w /\
    length d' = length d.
Proof.
  intros Hm. destruct w as [fs ds].
  unfold_m. simpl in *.
  destruct (path_exists dest _) eqn:Hex; [simplify_eq/=; done|].
  apply path_exists_false_lookup in Hex. simpl in Hex.
  repeat (case_match; simplify_eq/=).
  all: try (eexists _, _; split_and!; [done|done|done|done|done]).
  all: assert (src <> dest) by congruence;
       rewrite ?lookup_insert_ne in * by done; simplify_eq/=;
       rewrite ?lookup_insert_eq in *; simplify_eq/=.
  all: repeat match goal with
         | H : bool_decide (_ <> _) = false |- _ =>
             apply bool_decide_eq_false in H; apply dec_stable in H
         end.
  all: eexists _, _; split_and!; [done|done|by rewrite delete_insert_ne|done|done].
Qed.

(** X1: When move_file of consolidate_files.py fails, the directories are unchanged and every path other than the destination keeps its content; in particular the source file is never lost. *)
Lemma move_file_error_only_dest src dest verify w e w' :
  move_file rename_errno copy2_env unlink_errno sha256 src dest verify w = (inl e, w') ->
  dirs w' = dirs w /\ (forall p, p <> dest -> files w' !! p = files w !! p).
Proof. apply move_file_error_frame. Qed.

(** X3: When move_file of split_dir.py fails, the directories are unchanged and every path other than the destination keeps its content; in particular the source file is never lost. *)
Lemma move_file_split_error_only_dest src dest w e w' :
  move_file_split rename_errno copy2_env unlink_errno src dest w = (inl e, w') ->
  dirs w' = dirs w /\ (forall p, p <> dest -> files w' !! p = files w !! p).
Proof. apply move_file_split_error_frame. Qed.

End MoveFileFacts.

(** *** Decimal rendering: [str(n)] parses back with [int] *)

Lemma dv_from_acc acc l : dv_from acc l = acc * 10 ^ length l + dv_from 0 l.
Proof.
  unfold dv_from. revert acc. induction l as [|c l IH]; intros acc;
    cbn [fold_left length]; [simpl; lia|].
  rewrite (IH (10 * acc + _)), (IH (10 * 0 + _)). rewrite Nat.pow_succ_r'.
  generalize (10 ^ length l) (nat_of_ascii c - 48). intros. lia.
Qed.

Lemma pretty_N_char_digit (d : N) :
  (d < 10)%N -> is_digit (pretty_N_char d) = true /\
  nat_of_ascii (pretty_N_char d) - 48 = N.to_nat d.
Proof.
  intros Hd.
  assert (d = 0 \/ d = 1 \/ d = 2 \/ d = 3 \/ d = 4 \/ d = 5 \/ d = 6 \/ d = 7 \/ d = 8 \/ d = 9)%N
    as Hc by lia.
  repeat destruct Hc as [->|Hc]; subst; vm_compute; auto.
Qed.

Lemma pretty_N_go_digits (x : N) (s : string) :
  all_digits (String.list_ascii_of_string (pretty_N_go x s))
    = all_digits (String.list_ascii_of_string s) /\
  decimal_value (String.list_ascii_of_string (pretty_N_go x s))
    = N.to_nat x * 10 ^ length (String.list_ascii_of_string s)
      + decimal_value (String.list_ascii_of_string s).
Proof.
  revert s. induction (N.lt_wf_0 x) as [x _ IH]; intros s.
  destruct (decide (x = 0)%N) as [->|Hx].
  { rewrite pretty_N_go_0. split; [done|]. change (N.to_nat 0) with 0. lia. }
  rewrite pretty_N_go_step by lia.
  destruct (IH (x `div` 10)%N ltac:(apply N.div_lt; lia)
              (String (pretty_N_char (x `mod` 10)) s)) as (H1 & H2).
  destruct (pretty_N_char_digit (x `mod` 10)%N ltac:(apply N.mod_lt; lia)) as [Hd Hv].
  rewrite H1, H2. cbn [String.list_ascii_of_string length]. split.
  - unfold all_digits. simpl. by rewrite Hd.
  - unfold decimal_value. cbn [fold_left].
    fold (dv_from (10 * 0 + (nat_of_ascii (pretty_N_char (x `mod` 10)) - 48))
            (String.list_ascii_of_string s)).
    fold (dv_from 0 (String.list_ascii_of_string s)).
    rewrite dv_from_acc, Hv.
    rewrite N2Nat.inj_div, N2Nat.inj_mod. rewrite Nat.pow_succ_r'.
    pose proof (Nat.div_mod (N.to_nat x) 10 ltac:(lia)).
    generalize (10 ^ length (String.list_ascii_of_string s)). intros.
    change (N.to_nat 10) with 10. nia.
Qed.

Lemma pretty_nat_digits (n : nat) :
  String.list_ascii_of_string (pretty n) <> [] /\
  all_digits (String.list_ascii_of_string (pretty n)) = true /\
  decimal_value (String.list_ascii_of_string (pretty n)) = n.
Proof.
  cbv [pretty pretty_nat pretty_N].
  destruct (decide _) as [Hn|Hn].
  { assert (n = 0) as -> by lia. by vm_compute. }
  destruct (pretty_N_go_digits (N.of_nat n) "") as [H1 H2].
  rewrite Nat2N.id in H2. simpl in H1, H2. rewrite Nat.mul_1_r, Nat.add_0_r in H2.
  split_and!; [|done|done].
  intros Hnil. rewrite Hnil in H2. vm_compute in H2. lia.
Qed.

(** *** ASCII digits in decoded text *)

Lemma utf8_decode_ascii l : Forall (fun b => (b < 128)%N) l -> utf8_decode l = l.
Proof.
  induction 1 as [|b l Hb _ IH]; [done|]. simpl.
  assert ((b <? 128)%N = true) as -> by (apply N.ltb_lt; lia). by rewrite IH.
Qed.

Lemma decimal_in_cons z zs c :
  decimal_in (z :: zs) c
  = if bool_decide (z <= c < z + 10)%N then Some (N.to_nat (c - z)) else decimal_in zs c.
Proof. done. Qed.

Lemma u_lstrip_nonspace c l : u_isspace c = false -> u_lstrip (c :: l) = c :: l.
Proof. simpl. by intros ->. Qed.

Lemma u_lstrip_id l : Forall (fun c => u_isspace c = false) l -> u_lstrip l = l.
Proof. destruct 1; [done|]. by apply u_lstrip_nonspace. Qed.

Lemma u_strip_id l : Forall (fun c => u_isspace c = false) l -> u_strip l = l.
Proof.
  intros H. unfold u_strip. rewrite (u_lstrip_id l H).
  rewrite u_lstrip_id; [apply reverse_involutive|]. by apply Forall_reverse.
Qed.

Lemma digit_char c :
  is_digit c = true ->
  (N_of_ascii c < 128)%N /\ u_isspace (N_of_ascii c) = false /\
  u_decimal (N_of_ascii c) = Some (nat_of_ascii c - 48) /\
  ascii_of_nat (48 + (nat_of_ascii c - 48)) = c.
Proof.
  unfold is_digit, nat_of_ascii. intros H%bool_decide_eq_true_1.
  assert (48 <= N_of_ascii c <= 57)%N as Hr by lia.
  split_and!.
  - lia.
  - unfold u_isspace. apply bool_decide_eq_false_2. intros Hin.
    assert (Forall (fun s => s < 48 \/ 57 < s)%N space_table) as Hall
      by (apply (bool_decide_unpack _); vm_compute; reflexivity).
    rewrite Forall_forall in Hall. specialize (Hall _ Hin). lia.
  - unfold u_decimal, nd_zeros. rewrite decimal_in_cons, bool_decide_eq_true_2 by lia.
    f_equal. rewrite N2Nat.inj_sub. done.
  - unfold ascii_of_nat. rewrite <-(ascii_N_embedding c) at 2. f_equal. lia.
Qed.

Lemma digits_decoded ds :
  all_digits ds = true ->
  Forall (fun b => (b < 128)%N) (N_of_ascii <$> ds) /\
  Forall (fun c => u_isspace c = false) (N_of_ascii <$> ds) /\
  Forall (fun c => u_is_decimal c = true) (N_of_ascii <$> ds) /\
  (forall acc, fold_left (fun acc c => 10 * acc + default 0 (u_decimal c)) (N_of_ascii <$> ds) acc
               = fold_left (fun acc c => 10 * acc + (nat_of_ascii c - 48)) ds acc) /\
  ascii_num (N_of_ascii <$> ds) = ds.
Proof.
  induction ds as [|c ds IH]; [intros _; split_and!; done|].
  unfold all_digits. cbn [forallb]. intros [Hc Hds]%andb_true_iff.
  destruct (IH Hds) as (H1 & H2 & H3 & H4 & H5).
  destruct (digit_char c Hc) as (Hb & Hs & Hv & Ha).
  rewrite fmap_cons. split_and!.
  - by constructor.
  - by constructor.
  - constructor; [|done]. unfold u_is_decimal. rewrite Hv. by apply bool_decide_eq_true_2.
  - intros acc. cbn [fold_left]. rewrite Hv. apply H4.
  - unfold ascii_num in *. rewrite fmap_cons, Hv, Ha. by rewrite H5.
Qed.

Lemma fsdecode_ascii s :
  Forall (fun b => (b < 128)%N) (N_of_ascii <$> String.list_ascii_of_string s) ->
  fsdecode s = N_of_ascii <$> String.list_ascii_of_string s.
Proof. apply utf8_decode_ascii. Qed.

Lemma py_int_pretty (k : nat) : py_int (pretty k) = Some k.
Proof.
  destruct (pretty_nat_digits k) as (Hne & Hd & Hv).
  destruct (digits_decoded _ Hd) as (H1 & H2 & H3 & H4 & _).
  unfold py_int. rewrite fsdecode_ascii by done. rewrite u_strip_id by done.
  rewrite bool_decide_eq_true_2 by (intros Hnil%fmap_nil_inv; done).
  assert (forallb u_is_decimal (N_of_ascii <$> String.list_ascii_of_string (pretty k)) = true)
    as -> by (apply forallb_forall; intros x Hx%list_elem_of_In;
              by eapply Forall_forall in H3).
  simpl. unfold u_decimal_value. rewrite H4. by rewrite <-Hv at 2.
Qed.

Lemma matches_numbered_pretty (k : nat) : matches_numbered (pretty k) = true.
Proof.
  destruct (pretty_nat_digits k) as (Hne & Hd & _).
  destruct (digits_decoded _ Hd) as (H1 & _ & H3 & _).
  unfold matches_numbered. rewrite fsdecode_ascii by done.
  rewrite bool_decide_eq_true_2 by (intros Hnil%fmap_nil_inv; done).
  assert (forallb u_is_decimal (N_of_ascii <$> String.list_ascii_of_string (pretty k)) = true)
    as -> by (apply forallb_forall; intros x Hx%list_elem_of_In;
              by eapply Forall_forall in H3).
  done.
Qed.

Lemma find_max_fold_ge (l : list (string * node)) m name c k :
  ((name, c) ∈ l -> is_dir c && matches_numbered name = true -> py_int name = Some k ->
   k <= fold_left (fun max_num '(name, c) =>
               if is_dir c && matches_numbered name then
                 match py_int name with
                 | Some num => max max_num num
                 | None => max_num
                 end
               else max_num) l m) /\
  m <= fold_left (fun max_num '(name, c) =>
               if is_dir c && matches_numbered name then
                 match py_int name with
                 | Some num => max max_num num
                 | None => max_num
                 end
               else max_num) l m.
Proof.
  revert m. induction l as [|[n0 c0] l IH]; intros m; simpl.
  { split; [by intros ?%elem_of_nil|lia]. }
  set (m' := if is_dir c0 && matches_numbered n0 then _ else m).
  assert (m <= m') as Hm'.
  { subst m'. destruct (is_dir c0 && matches_numbered n0); [destruct (py_int n0)|]; lia. }
  destruct (IH m') as [IH1 IH2]. split; [|lia].
  intros Hin Hd Hk. apply elem_of_cons in Hin as [Heq|Hin]; [|by apply IH1].
  injection Heq as -> ->. enough (k <= m') by lia.
  subst m'. rewrite Hd, Hk. lia.
Qed.

(** X14: No bin directory name split's main derives from find_max_numbered_dir (start_num + i + 1) is the name of a subdirectory already in the directory. *)
Lemma bin_dirs_fresh listing nbins name c :
  (name, c) ∈ listing -> is_dir c = true -> name ∉ bin_dir_names listing nbins.
Proof.
  intros Hin Hd Hname. unfold bin_dir_names in Hname.
  apply list_elem_of_fmap in Hname as (i & -> & Hi).
  destruct (find_max_fold_ge listing 0 (pretty (find_max_numbered_dir listing + i + 1)) c
              (find_max_numbered_dir listing + i + 1))
    as [H _].
  specialize (H Hin). rewrite Hd, matches_numbered_pretty, py_int_pretty in H.
  specialize (H eq_refl eq_refl). unfold find_max_numbered_dir in H. lia.
Qed.

Lemma probe_first disk claimed t stem suffix fuel n c :
  probe disk claimed t stem suffix fuel n = Some c ->
  exists k, n <= k /\ c = numbered_candidate t stem suffix k /\
    forall j, n <= j < k -> taken disk claimed (numbered_candidate t stem suffix j) = true.
Proof.
  revert n. induction fuel as [|fuel IH]; intros n; simpl; [done|].
  destruct (taken _ _ _) eqn:Ht.
  - intros Hp. destruct (IH (S n) Hp) as (k & Hk & -> & Hall).
    exists k. split_and!; [lia|done|]. intros j Hj.
    destruct (decide (j = n)) as [->|]; [done|]. apply Hall. lia.
  - intros [= <-]. exists n. split_and!; [lia|done|]. intros j Hj. lia.
Qed.

Lemma get_unique_name_probe disk claimed t name :
  let '(c, claimed') := get_unique_name disk claimed t name in
  claimed' = {[c]} ∪ claimed /\ taken disk claimed c = false /\
  ((taken disk claimed (path_join t name) = false /\ c = path_join t name) \/
   (taken disk claimed (path_join t name) = true /\
    exists k, 1 <= k /\ c = numbered_candidate t (path_stem name) (path_suffix name) k /\
      forall j, 1 <= j < k ->
        taken disk claimed (numbered_candidate t (path_stem name) (path_suffix name) j) = true)).
Proof.
  unfold get_unique_name.
  destruct (taken disk claimed (path_join t name)) eqn:H0.
  - destruct (probe _ _ _ _ _ _ _) as [c|] eqn:Hp.
    + simpl. split_and!; [done|by eapply probe_not_taken|].
      right. split; [done|]. by apply probe_first in Hp.
    + exfalso. by eapply probe_enough.
  - simpl. split_and!; [done|done|]. left. done.
Qed.

(** X9: The planning loop of consolidate's main makes one operation per scanned file, in scan order; the claimed names afterwards are the old ones plus all planned destinations; an operation is marked renamed exactly when its destination is a numbered candidate stem_k+suffix (k >= 1) rather than target/name. *)
(** X8: get_unique_name returns a candidate that is neither on disk nor claimed and adds exactly it to the claimed names; it is the plain target/name when that is free, and otherwise stem_k+suffix for the smallest k >= 1 whose candidate is free. *)
Lemma get_unique_name_first_free disk claimed t name :
  let '(c, claimed') := get_unique_name disk claimed t name in
  claimed' = {[c]} ∪ claimed /\ taken disk claimed c = false /\
  ((taken disk claimed (path_join t name) = false /\ c = path_join t name) \/
   (taken disk claimed (path_join t name) = true /\
    exists k, 1 <= k /\ c = numbered_candidate t (path_stem name) (path_suffix name) k /\
      forall j, 1 <= j < k ->
        taken disk claimed (numbered_candidate t (path_stem name) (path_suffix name) j) = true)).
Proof. apply get_unique_name_probe. Qed.

Lemma plan_ops_shape disk t claimed files :
  let '(ops, claimed') := plan_ops disk t claimed files in
  (fun op => op.1.1) <$> ops = files /\
  claimed' = list_to_set (op_dest <$> ops) ∪ claimed /\
  Forall (fun op =>
    (op.2 = false /\ op.1.2 = path_join t (path_name op.1.1)) \/
    (op.2 = true /\ exists k, 1 <= k /\
       op.1.2 = numbered_candidate t (path_stem (path_name op.1.1))
                  (path_suffix (path_name op.1.1)) k)) ops.
Proof.
  revert claimed. induction files as [|f files IH]; intros claimed; cbn [plan_ops].
  - split_and!; [done|set_solver|constructor].
  - pose proof (get_unique_name_probe disk claimed t (path_name f)) as Hg.
    destruct (get_unique_name _ _ _ _) as [c cl'] eqn:Hgu.
    destruct Hg as (-> & _ & Hcase).
    specialize (IH ({[c]} ∪ claimed)).
    destruct (plan_ops _ _ _ _) as [ops cl''] eqn:Hpl.
    destruct IH as (IH1 & IH2 & IH3). cbn [fmap list_fmap].
    split_and!.
    + simpl. by rewrite <-IH1.
    + rewrite IH2. simpl. set_solver.
    + constructor; [|done]. simpl.
      case_bool_decide as Hne.
      * right. split; [done|]. destruct Hcase as [[_ ->]|[_ (k & Hk & -> & _)]]; [done|].
        eauto.
      * left. split; [done|]. done.
Qed.

(** X5: check_path_overlap rejects the arguments exactly when some source directory, resolved, is equal to the resolved target, contains it, or lies inside it. *)
Lemma check_path_overlap_spec resolve_path target_dir source_dirs :
  check_path_overlap resolve_path target_dir source_dirs = true <->
  exists src, src ∈ source_dirs /\
    (resolve_path target_dir = resolve_path src \/
     resolve_path src `prefix_of` resolve_path target_dir \/
     resolve_path target_dir `prefix_of` resolve_path src).
Proof.
  split.
  - induction source_dirs as [|s0 rest IH]; simpl; [done|].
    unfold is_subpath. rewrite !orb_true_iff, !bool_decide_eq_true.
    intros [[[H|H]|H]|H].
    + exists s0. split; [apply elem_of_cons; by left|]. auto.
    + exists s0. split; [apply elem_of_cons; by left|]. auto.
    + exists s0. split; [apply elem_of_cons; by left|]. auto.
    + destruct (IH H) as (src & Hin & Hr). exists src.
      split; [apply elem_of_cons; by right|done].
  - intros (src & Hin & Hr). by eapply check_path_overlap_true.
Qed.

Lemma scan_node_prefix : forall n q p, p ∈ scan_node q n -> q `prefix_of` p.
Proof.
  fix IH 1. intros n q p.
  destruct n as [sz|r cs|[t|]|]; simpl.
  - intros ->%list_elem_of_singleton. done.
  - destruct r; [|by intros ?%elem_of_nil].
    revert p. revert cs. fix IHl 1. intros [|[nm c] cs] p; simpl.
    + by intros ?%elem_of_nil.
    + intros [Hp|Hp]%elem_of_app.
      * apply IH in Hp. unfold path_join in Hp.
        destruct Hp as [k ->]. exists ([nm] ++ k). by rewrite (assoc_L (++)).
      * by apply (IHl cs).
  - apply IH.
  - by intros ?%elem_of_nil.
  - by intros ?%elem_of_nil.
Qed.

(** X6: Every path get_all_files returns lies strictly below the directory it was called on (the directory's parts followed by at least one more name). *)
Lemma get_all_files_below d n p :
  p ∈ get_all_files d n -> exists name rest, p = d ++ name :: rest.
Proof.
  unfold get_all_files.
  destruct (resolve n) as [[| [|] cs | |]|]; try by intros ?%elem_of_nil.
  intros (x & Hx & Hp)%list_elem_of_In%in_flat_map.
  destruct x as [nm c]. apply list_elem_of_In in Hp.
  apply scan_node_prefix in Hp as [k ->]. exists nm, k.
  unfold path_join. by rewrite <-(assoc_L (++)).
Qed.

(** X10: With --dry-run, consolidate's main leaves the file system unchanged (it does not even create the target directory), moves nothing and never returns normally. *)
Lemma consolidate_dry_run_no_change rename_errno copy2_env unlink_errno sha256 mkdir_errno
    resolve_path target_listing source_node disk target_dir source_dirs verify w :
  let '(o, w', log) := consolidate_main rename_errno copy2_env unlink_errno sha256 mkdir_errno
                         resolve_path target_listing source_node disk
                         target_dir source_dirs true verify w in
  w' = w /\ log = [] /\ o <> Returned.
Proof.
  unfold consolidate_main.
  case_bool_decide; [done|]. destruct (check_path_overlap _ _ _); [done|].
  case_bool_decide; [done|].
  destruct (scan_sources _ _); [|done].
  case_bool_decide; done.
Qed.

(** X17: With --dry-run, split's main leaves the file system unchanged, creates no directory, moves nothing and never returns normally. *)
Lemma split_dry_run_no_change rename_errno copy2_env unlink_errno mkdir_errno float_bytes
    directory dir_node split_size w :
  let '(o, (w', created), log) := split_main rename_errno copy2_env unlink_errno mkdir_errno
                                    float_bytes directory dir_node split_size true w in
  w' = w /\ created = ∅ /\ log = [] /\ o <> Returned.
Proof.
  unfold split_main.
  destruct dir_node as [dn|]; [|done]. destruct (negb (is_dir dn)); [done|].
  destruct (parse_size _ _) as [|[v|]]; [done| |done].
  case_bool_decide; [done|]. destruct (dir_listing dn); [|done].
  case_bool_decide; done.
Qed.

Lemma first_fit_none m sz bs k :
  first_fit m sz bs k = None -> forall b, b ∈ bs -> m < b + sz.
Proof.
  revert k. induction bs as [|b0 bs IH]; intros k; simpl.
  - intros _ b ?%elem_of_nil. done.
  - case_bool_decide as Hb; [done|]. intros Hf b [->|Hin]%elem_of_cons; [lia|].
    by eapply IH.
Qed.


Lemma lookup_alter_grow (x : nat) i0 (sizes : list nat) i si :
  alter (fun s => s + x) i0 sizes !! i = Some si ->
  exists si0, sizes !! i = Some si0 /\ si0 <= si.
Proof.
  intros H. rewrite list_lookup_alter in H. destruct (decide (i0 = i)) as [<-|]; [|eauto].
  destruct (sizes !! i0) eqn:E; simplify_eq/=. eexists; split; [done|lia].
Qed.

Lemma pack_step_not_mergeable cap st e :
  bins_not_mergeable cap st.2 -> bins_not_mergeable cap (pack_step cap st e).2.
Proof.
  destruct st as [batches sizes]. unfold pack_step; simpl. intros Hinv.
  assert (Hsnoc : (forall b, b ∈ sizes -> cap < b + e.2) ->
                  bins_not_mergeable cap (sizes ++ [e.2])).
  { intros Hall i j si sj Hij Hi Hj.
    apply lookup_snoc_Some in Hi as [[Hi Hi']|[-> <-]];
      apply lookup_snoc_Some in Hj as [[Hj Hj']|[-> <-]]; try lia.
    - by apply (Hinv i j).
    - apply Hall. by eapply list_elem_of_lookup_2. }
  case_bool_decide as Hbig.
  - apply Hsnoc. intros b _. lia.
  - destruct (first_fit cap e.2 sizes 0) as [i0|] eqn:Hf; simpl.
    + intros i j si sj Hij Hi Hj.
      apply lookup_alter_grow in Hi as (si0 & Hi0 & Hle0).
      apply lookup_alter_grow in Hj as (sj0 & Hj0 & Hle1).
      pose proof (Hinv i j si0 sj0 Hij Hi0 Hj0). lia.
    + apply Hsnoc. intros b Hb. by eapply first_fit_none.
Qed.

Lemma pack_not_mergeable cap files st :
  bins_not_mergeable cap st.2 ->
  bins_not_mergeable cap (fold_left (pack_step cap) files st).2.
Proof.
  revert st. induction files as [|e files IH]; intros st H; simpl; [done|].
  apply IH. by apply pack_step_not_mergeable.
Qed.

(** X15: After the first-fit packing of split's main, no two batches could be merged: the sizes of any two batches add up to more than max_size. *)
Lemma split_batches_not_mergeable cap files i j si sj :
  i < j -> (split_batches cap files).2 !! i = Some si ->
  (split_batches cap files).2 !! j = Some sj -> cap < si + sj.
Proof.
  intros Hij Hi Hj. unfold split_batches, pack in *.
  eapply (pack_not_mergeable cap (sort_desc files) ([], [])); [|exact Hij|exact Hi|exact Hj].
  intros ? ? ? ? _ H. done.
Qed.

Lemma split_operations_cons directory s b bs :
  split_operations directory s (b :: bs) =
  ((fun '(name, _) =>
      (path_join directory name,
       path_join (path_join directory (pretty (s + 1))) name, pretty (s + 1))) <$> b)
  ++ split_operations directory (S s) bs.
Proof.
  unfold split_operations. rewrite imap_cons. cbn [concat].
  rewrite Nat.add_0_r. f_equal. f_equal. apply imap_ext. intros i x _. simpl.
  by replace (s + S i + 1) with (S s + i + 1) by lia.
Qed.

Lemma split_operations_sources directory s bs :
  (fun op : path * path * string => op.1.1) <$> split_operations directory s bs
  = (fun e : entry => path_join directory e.1) <$> concat bs.
Proof.
  revert s. induction bs as [|b bs IH]; intros s; [done|].
  rewrite split_operations_cons, concat_cons, !fmap_app, IH. f_equal.
  rewrite <-list_fmap_compose. apply list_fmap_ext. by intros ? [??] _.
Qed.

Lemma split_operations_dest_names directory s bs :
  (fun op : path * path * string => path_name op.1.2) <$> split_operations directory s bs
  = fst <$> concat bs.
Proof.
  revert s. induction bs as [|b bs IH]; intros s; [done|].
  rewrite split_operations_cons, concat_cons, !fmap_app, IH. f_equal.
  rewrite <-list_fmap_compose. apply list_fmap_ext. intros ? [??] _.
  unfold compose, path_name, path_join; simpl. by rewrite last_snoc.
Qed.

Lemma split_operations_elem directory s bs op :
  op ∈ split_operations directory s bs ->
  exists i b name sz, bs !! i = Some b /\ (name, sz) ∈ b /\
    op = (path_join directory name,
          path_join (path_join directory (pretty (s + i + 1))) name, pretty (s + i + 1)).
Proof.
  revert s. induction bs as [|b bs IH]; intros s; [by rewrite elem_of_nil|].
  rewrite split_operations_cons, elem_of_app. intros [Hop|Hop].
  - apply list_elem_of_fmap in Hop as ([name sz] & -> & Hin).
    exists 0, b, name, sz. by rewrite Nat.add_0_r.
  - apply IH in Hop as (i & b' & name & sz & Hi & Hin & ->).
    exists (S i), b', name, sz. split_and!; [done|done|].
    by replace (s + S i + 1) with (S s + i + 1) by lia.
Qed.

Lemma split_scan_names_sublist listing :
  fst <$> split_scan listing `sublist_of` fst <$> listing.
Proof.
  induction listing as [|[name c] listing IH]; simpl; [done|].
  destruct (is_file c); simpl; by constructor.
Qed.

Lemma split_batches_perm cap files :
  concat (split_batches cap files).1 ≡ₚ files.
Proof.
  unfold split_batches. destruct (pack_inv_final cap (sort_desc files)) as (_ & Hp & _).
  rewrite Hp. apply sort_desc_props.
Qed.

(** X16: When the directory's entry names are distinct, the operations of split's main move each regular file of the directory exactly once, their destinations are pairwise distinct, and each one moves directory/name to directory/str(start_num+i+1)/name for a batch index i. *)
Lemma split_plan_sound directory start_num cap listing :
  NoDup (fst <$> listing) ->
  ((fun op : path * path * string => op.1.1) <$>
     split_operations directory start_num (split_batches cap (split_scan listing)).1
   ≡ₚ (fun e : entry => path_join directory e.1) <$> split_scan listing) /\
  NoDup ((fun op : path * path * string => op.1.2) <$>
     split_operations directory start_num (split_batches cap (split_scan listing)).1) /\
  (forall op, op ∈ split_operations directory start_num (split_batches cap (split_scan listing)).1 ->
   exists i name, i < length (split_batches cap (split_scan listing)).1 /\
     op = (path_join directory name,
           path_join (path_join directory (pretty (start_num + i + 1))) name,
           pretty (start_num + i + 1))).
Proof.
  intros Hnd. split_and!.
  - rewrite split_operations_sources. by rewrite split_batches_perm.
  - apply (NoDup_fmap_1 path_name). rewrite <-list_fmap_compose.
    change (path_name ∘ (fun op : path * path * string => op.1.2))
      with (fun op : path * path * string => path_name op.1.2).
    rewrite split_operations_dest_names, split_batches_perm.
    eapply sublist_NoDup; [exact Hnd|]. apply split_scan_names_sublist.
  - intros op Hop. apply split_operations_elem in Hop as (i & b & name & sz & Hi & _ & ->).
    exists i, name. split; [|done]. by eapply lookup_lt_Some.
Qed.

Lemma split_step_dirs rename_errno copy2_env unlink_errno mkdir_errno directory op w c r w' c' :
  split_step rename_errno copy2_env unlink_errno mkdir_errno directory op (w, c) = (r, (w', c')) ->
  c ⊆ dirs w -> dirs w ⊆ dirs w' /\ c' ⊆ dirs w'.
Proof.
  unfold split_step. intros Hs Hc.
  destruct (bool_decide (path_join directory op.2 ∈ c)) eqn:Hin.
  - destruct (move_file_split _ _ _ _ _ w) as [[e|[]] w2] eqn:Hm; simplify_eq/=.
    + apply move_file_split_error_frame in Hm as [-> _]. done.
    + apply move_file_split_success_frame in Hm as (? & ? & _ & _ & _ & -> & _). done.
  - destruct (mkdir mkdir_errno (path_join directory op.2) w) as [[e|[]] w1] eqn:Hk.
    + unfold mkdir in Hk. unfold_m. simpl in *.
      repeat (case_match; simplify_eq/=); done.
    + assert (Hw1 : dirs w1 = {[path_join directory op.2]} ∪ dirs w).
      { unfold mkdir in Hk. unfold_m. simpl in *.
        repeat (case_match; simplify_eq/=); done. }
      destruct (move_file_split _ _ _ _ _ w1) as [[e|[]] w2] eqn:Hm; simplify_eq/=.
      * apply move_file_split_error_frame in Hm as [-> _]. rewrite Hw1. set_solver.
      * apply move_file_split_success_frame in Hm as (? & ? & _ & _ & _ & -> & _).
        rewrite Hw1. set_solver.
Qed.

(** X18: The move loop of split's main never removes a directory, and every directory it records in created_dirs exists as a directory afterwards. *)
Lemma split_loop_dirs rename_errno copy2_env unlink_errno mkdir_errno directory ops k n
    w c o w' c' log :
  c ⊆ dirs w ->
  exec_loop (split_step rename_errno copy2_env unlink_errno mkdir_errno directory)
    (fun op => op.1.1) (fun op => op.1.2) ops k n (w, c) = (o, (w', c'), log) ->
  dirs w ⊆ dirs w' /\ c' ⊆ dirs w'.
Proof.
  revert k w c log. induction ops as [|op ops IH]; intros k w c log Hc Hl; cbn [exec_loop] in Hl.
  - simplify_eq/=. done.
  - destruct (split_step rename_errno copy2_env unlink_errno mkdir_errno directory op (w, c)) as [r [w1 c1]] eqn:Hs.
    apply split_step_dirs in Hs as [H1 H2]; [|done].
    destruct r; simplify_eq/=; try done.
    destruct (exec_loop _ _ _ ops _ _ _) as [[o' [w2 c2]] log'] eqn:Hr.
    simplify_eq/=. apply IH in Hr as [H3 H4]; [|done]. split; [set_solver|done].
Qed.

(** X11: The move loop of consolidate's main never changes a path that is neither a source nor a destination of a planned operation, whether it stops early or not, and it never changes the directories. *)
Lemma consolidate_loop_frame rename_errno copy2_env unlink_errno sha256 verify ops k n
    w o w' log p :
  (forall op, op ∈ ops -> p <> op.1.1 /\ p <> op.1.2) ->
  exec_loop (consolidate_step rename_errno copy2_env unlink_errno sha256 verify)
    (fun op => op.1.1) (fun op => op.1.2) ops k n w = (o, w', log) ->
  files w' !! p = files w !! p /\ dirs w' = dirs w.
Proof.
  revert k w log. induction ops as [|op ops IH]; intros k w log Hp Hl; cbn [exec_loop] in Hl.
  - simplify_eq/=. done.
  - destruct (Hp op (list_elem_of_here _ _)) as [Hs Hd].
    unfold consolidate_step in Hl at 1.
    destruct (move_file _ _ _ _ _ _ _ w) as [[e|[]] w1] eqn:Hm; simplify_eq/=.
    + apply move_file_error_frame in Hm as [Hdirs Hf]. by rewrite Hf.
    + apply move_file_success_frame in Hm as (d & d' & _ & _ & Hf & Hdirs & _).
      destruct (exec_loop _ _ _ ops _ _ _) as [[o' w2] log'] eqn:Hr. simplify_eq/=.
      apply IH in Hr as [H1 H2]; [|intros op' Hop'; apply Hp; by right].
      rewrite H1, H2, Hf, lookup_insert_ne, lookup_delete_ne by done. done.
Qed.

(** X19: The move loop of split's main never changes the content of a path that is neither a source nor a destination of an operation, whether it stops early or not. *)
Lemma split_loop_frame rename_errno copy2_env unlink_errno mkdir_errno directory ops k n
    w c o w' c' log p :
  (forall op, op ∈ ops -> p <> op.1.1 /\ p <> op.1.2) ->
  exec_loop (split_step rename_errno copy2_env unlink_errno mkdir_errno directory)
    (fun op => op.1.1) (fun op => op.1.2) ops k n (w, c) = (o, (w', c'), log) ->
  files w' !! p = files w !! p.
Proof.
  revert k w c log. induction ops as [|op ops IH]; intros k w c log Hp Hl; cbn [exec_loop] in Hl.
  - simplify_eq/=. done.
  - destruct (Hp op (list_elem_of_here _ _)) as [Hs Hd].
    assert (Hstep : forall r w1 c1,
      split_step rename_errno copy2_env unlink_errno mkdir_errno directory op (w, c) = (r, (w1, c1)) ->
      files w1 !! p = files w !! p).
    { intros r w1 c1. unfold split_step.
      assert (Hmv : forall w0 c0, files w0 !! p = files w !! p ->
        (match move_file_split rename_errno copy2_env unlink_errno op.1.1 op.1.2 w0 with
         | (inl e, w2) => (StepRaised e, (w2, c0))
         | (inr _, w2) => (StepDone, (w2, c0))
         end) = (r, (w1, c1)) -> files w1 !! p = files w !! p).
      { intros w0 c0 H0 Hm'.
        destruct (move_file_split _ _ _ _ _ w0) as [[e|[]] w2] eqn:Hm; simplify_eq/=.
        - apply move_file_split_error_frame in Hm as [_ Hf]. by rewrite Hf.
        - apply move_file_split_success_frame in Hm as (d & d' & _ & _ & Hf & _).
          by rewrite Hf, lookup_insert_ne, lookup_delete_ne. }
      case_bool_decide.
      - by apply Hmv.
      - destruct (mkdir mkdir_errno _ w) as [[e|[]] w0] eqn:Hk.
        + unfold mkdir in Hk. unfold_m. simpl in *.
          intros; repeat (case_match; simplify_eq/=); done.
        + apply Hmv. unfold mkdir in Hk. unfold_m. simpl in *.
          repeat (case_match; simplify_eq/=); done. }
    destruct (split_step rename_errno copy2_env unlink_errno mkdir_errno directory op (w, c))
      as [r [w1 c1]] eqn:Hs'.
    specialize (Hstep _ _ _ eq_refl). destruct r; simplify_eq/=; try done.
    destruct (exec_loop _ _ _ ops _ _ _) as [[o' [w2 c2]] log'] eqn:Hr. simplify_eq/=.
    apply IH in Hr; [congruence|intros op' Hop'; apply Hp; by right].
Qed.

Lemma list_ascii_of_string_append (s1 s2 : string) :
  String.list_ascii_of_string (s1 +:+ s2)
  = String.list_ascii_of_string s1 ++ String.list_ascii_of_string s2.
Proof. induction s1 as [|c s1 IH]; simpl; [done|by rewrite IH]. Qed.

Lemma span_decimal_app d u :
  Forall (fun c => u_is_decimal c = true) d ->
  (forall c r, u = c :: r -> u_is_decimal c = false) ->
  span_decimal (d ++ u) = (d, u).
Proof.
  intros Hd Hu. induction Hd as [|c d Hc _ IH]; simpl.
  - destruct u as [|c r]; [done|]. simpl. by rewrite (Hu c r eq_refl).
  - by rewrite Hc, IH.
Qed.

(** X12: parse_size accepts a decimal integer followed by no unit or by one of B, KB, MB, GB, TB, and computes the size from those digits and that unit, the unit defaulting to B. *)
Lemma parse_size_pretty float_bytes (n : nat) u :
  u ∈ ""%string :: size_unit_names ->
  parse_size float_bytes (pretty n +:+ u)
  = inr (float_bytes (String.list_ascii_of_string (pretty n))
                     (if bool_decide (u = ""%string) then "B"%string else u)).
Proof.
  destruct (pretty_nat_digits n) as (Hne & Hd & _).
  destruct (digits_decoded _ Hd) as (Hb & Hs & Hdec & _ & Ha).
  unfold size_unit_names. intros Hu.
  unfold parse_size, size_match, fsdecode.
  rewrite list_ascii_of_string_append, fmap_app.
  set (ds := String.list_ascii_of_string (pretty n)) in *. clearbody ds.
  repeat (apply elem_of_cons in Hu as [->|Hu]);
    [..|by apply elem_of_nil in Hu].
  all: cbn [String.list_ascii_of_string fmap list_fmap].
  all: rewrite utf8_decode_ascii
         by (apply Forall_app; split; [done|repeat constructor; vm_compute; reflexivity]).
  all: rewrite u_strip_id
         by (apply Forall_app; split; [done|repeat constructor]).
  all: rewrite span_decimal_app by (done || (intros ?? [= <- _]; reflexivity)).
  all: rewrite bool_decide_eq_false_2 by (intros Hnil%fmap_nil_inv; done).
  all: simpl; rewrite Ha; reflexivity.
Qed.

(** X13: parse_size raises typer.BadParameter on every string whose decoded and stripped form is empty or does not start with a decimal digit, such as a negative size. *)
Lemma parse_size_needs_leading_digit float_bytes s :
  (forall c rest, u_strip (fsdecode s) = c :: rest -> u_decimal c = None) ->
  parse_size float_bytes s = inl tt.
Proof.
  intros H. unfold parse_size, size_match.
  destruct (u_strip (fsdecode s)) as [|c rest] eqn:Hs; [done|].
  simpl. unfold u_is_decimal. rewrite (H c rest eq_refl).
  by rewrite bool_decide_eq_false_2 by (intros []; discriminate).
Qed.

Lemma parse_size_needs_leading_digit_witness :
  parse_size (fun _ _ => None) "-1GB" = inl tt.
Proof.
  apply parse_size_needs_leading_digit. intros c rest H. vm_compute in H.
  injection H as <- _. vm_compute. reflexivity.
Defined.

(** X20: Size strings and bin names are read as Python reads them: a no-break space (U+00A0) before the unit and an Arabic-Indic digit eight (U+0668) are accepted, a unit spelt with the Kelvin sign (U+212A) passes the case-insensitive pattern but is not a key of SIZE_UNITS (KeyError, a crash), and a subdirectory named by the Arabic-Indic digit five (U+0665) counts as bin 5. *)
Theorem unicode_text_examples :
  parse_size small_float_bytes (of_bytes [56; 194; 160; 75; 66]) = inr (Some 8192%Z) /\
  parse_size small_float_bytes (of_bytes [217; 168; 75; 66]) = inr (Some 8192%Z) /\
  parse_size small_float_bytes (of_bytes [56; 226; 132; 170; 66]) = inr None /\
  find_max_numbered_dir [(of_bytes [217; 165], NDir true [])] = 5.
Proof. vm_compute. split_and!; reflexivity. Qed.

Lemma substring_chars n m s :
  String.list_ascii_of_string (String.substring n m s)
  = firstn m (skipn n (String.list_ascii_of_string s)).
Proof.
  revert n m. induction s as [|c s IH]; intros [|n] [|m]; simpl; try done; by rewrite IH.
Qed.

Lemma string_length_chars s : String.length s = length (String.list_ascii_of_string s).
Proof. induction s; simpl; auto. Qed.

Lemma rfind_dot_go_spec s k acc i :
  rfind_dot_go s k acc = Some i ->
  (acc = Some i /\ "."%char ∉ String.list_ascii_of_string s) \/
  (exists pre post, String.list_ascii_of_string s = pre ++ "."%char :: post /\
     i = k + length pre /\ "."%char ∉ post).
Proof.
  revert k acc. induction s as [|c s IH]; intros k acc H; simpl in H.
  - left. split; [done|]. simpl. apply not_elem_of_nil.
  - apply IH in H as [[Hacc Hno]|(pre & post & Hs & -> & Hno)].
    + destruct (Ascii.eqb_spec c "."%char) as [->|Hc].
      * right. exists [], (String.list_ascii_of_string s). simpl in *. simplify_eq. split_and!; [done|lia|done].
      * left. split; [done|]. simpl. rewrite elem_of_cons. intros [?|?]; [congruence|done].
    + right. exists (c :: pre), post. simpl. rewrite Hs. split_and!; [done|lia|done].
Qed.

Lemma string_append_empty_r (s : string) : s +:+ "" = s.
Proof. induction s as [|c s IH]; [done|]. exact (f_equal (String c) IH). Qed.

(** X7: The stem and suffix get_unique_name takes from a file name concatenate back to the name; the suffix is empty or is a dot followed by a non-empty dot-free rest, and then the stem is non-empty. *)
Lemma stem_suffix_split name :
  path_stem name +:+ path_suffix name = name /\
  (path_suffix name = ""%string \/
   exists rest, path_suffix name = String "."%char rest /\ rest <> ""%string /\
     path_stem name <> ""%string /\ "."%char ∉ String.list_ascii_of_string rest).
Proof.
  unfold path_stem, path_suffix, stem_suffix.
  destruct (rfind_dot name) as [i|] eqn:Hr; [|simpl; rewrite string_append_empty_r; auto].
  case_bool_decide as Hi; [|simpl; rewrite string_append_empty_r; auto].
  unfold rfind_dot in Hr. apply rfind_dot_go_spec in Hr
    as [[? _]|(pre & post & Hs & -> & Hno)]; [done|].
  simpl. rewrite string_length_chars, Hs in Hi. rewrite length_app in Hi. simpl in Hi.
  assert (Hstem : String.substring 0 (length pre) name = String.string_of_list_ascii pre).
  { rewrite <-(String.string_of_list_ascii_of_string (String.substring _ _ _)).
    rewrite substring_chars, Hs, drop_0. by rewrite take_app_length. }
  assert (Hsuf : String.substring (length pre) (String.length name - length pre) name
                 = String "."%char (String.string_of_list_ascii post)).
  { rewrite <-(String.string_of_list_ascii_of_string (String.substring _ _ _)).
    rewrite substring_chars, string_length_chars, Hs, drop_app_length, length_app.
    simpl. replace (length pre + S (length post) - length pre) with (S (length post)) by lia.
    rewrite take_ge by (simpl; lia). done. }
  rewrite Hstem, Hsuf. split.
  - rewrite <-(String.string_of_list_ascii_of_string (_ +:+ _)),
      <-(String.string_of_list_ascii_of_string name).
    f_equal. rewrite list_ascii_of_string_append, Hs. simpl.
    by rewrite !String.list_ascii_of_string_of_list_ascii.
  - right. exists (String.string_of_list_ascii post). split_and!; [done| | |].
    + destruct post; simpl in *; [lia|done].
    + destruct pre; simpl in *; [lia|done].
    + by rewrite String.list_ascii_of_string_of_list_ascii.
Qed.

(** *** Instances of the further properties *)

Ltac decide_by_eval := apply (bool_decide_unpack _); vm_compute; reflexivity.

Lemma move_file_error_only_dest_witness :
  move_file xdev_rename partial_copy unlink_ok const_sha ["s"] ["d"] false w_src
    = (inl (OSError EACCES), mkWorld (<[["d"]:=[Byte.x61]]> (files w_src)) (dirs w_src)) /\
  (dirs (mkWorld (<[["d"]:=[Byte.x61]]> (files w_src)) (dirs w_src)) = dirs w_src /\
   forall p, p <> ["d"] ->
     files (mkWorld (<[["d"]:=[Byte.x61]]> (files w_src)) (dirs w_src)) !! p = files w_src !! p).
Proof.
  split; [vm_compute; reflexivity|].
  apply (move_file_error_only_dest xdev_rename partial_copy unlink_ok const_sha ["s"] ["d"] false
           w_src (OSError EACCES)).
  vm_compute; reflexivity.
Defined.

Lemma move_file_split_error_only_dest_witness :
  move_file_split xdev_rename partial_copy unlink_ok ["s"] ["d"] w_src
    = (inl (OSError EACCES), mkWorld (<[["d"]:=[Byte.x61]]> (files w_src)) (dirs w_src)) /\
  (dirs (mkWorld (<[["d"]:=[Byte.x61]]> (files w_src)) (dirs w_src)) = dirs w_src /\
   forall p, p <> ["d"] ->
     files (mkWorld (<[["d"]:=[Byte.x61]]> (files w_src)) (dirs w_src)) !! p = files w_src !! p).
Proof.
  split; [vm_compute; reflexivity|].
  apply (move_file_split_error_only_dest xdev_rename partial_copy unlink_ok ["s"] ["d"]
           w_src (OSError EACCES)).
  vm_compute; reflexivity.
Defined.

Lemma get_all_files_below_witness :
  ["s"; "a"]%string ∈ get_all_files ["s"%string] (NDir true [("a"%string, NReg 2)]) /\
  exists name rest, ["s"; "a"]%string = ["s"%string] ++ name :: rest.
Proof.
  split; [decide_by_eval|].
  apply (get_all_files_below ["s"%string] (NDir true [("a"%string, NReg 2)])).
  decide_by_eval.
Defined.

Lemma consolidate_loop_frame_witness :
  (forall op, op ∈ [(["s"; "a"]%string, ["t"; "a"]%string, false)] ->
     ["s"; "b"]%string <> op.1.1 /\ ["s"; "b"]%string <> op.1.2) /\
  (let '(o, w', log) :=
     exec_loop (consolidate_step same_dev_rename copy_ok unlink_ok const_sha false)
       (fun op => op.1.1) (fun op => op.1.2) [(["s"; "a"]%string, ["t"; "a"]%string, false)] 0 1 w_ab in
   o = Returned /\
   files w' !! ["s"; "b"]%string = files w_ab !! ["s"; "b"]%string /\ dirs w' = dirs w_ab).
Proof.
  assert (Hp : forall op, op ∈ [(["s"; "a"]%string, ["t"; "a"]%string, false)] ->
     ["s"; "b"]%string <> op.1.1 /\ ["s"; "b"]%string <> op.1.2).
  { intros op ->%list_elem_of_singleton. simpl. split; discriminate. }
  split; [exact Hp|].
  destruct (exec_loop _ _ _ _ _ _ w_ab) as [[o w'] log] eqn:He.
  split; [vm_compute in He; congruence|].
  exact (consolidate_loop_frame same_dev_rename copy_ok unlink_ok const_sha false _ 0 1
           w_ab o w' log ["s"; "b"]%string Hp He).
Defined.

Lemma parse_size_pretty_witness :
  "KB"%string ∈ ""%string :: size_unit_names /\
  parse_size small_float_bytes (pretty (500 : nat) +:+ "KB") = inr (Some 512000%Z).
Proof.
  split; [decide_by_eval|].
  rewrite (parse_size_pretty small_float_bytes 500 "KB") by decide_by_eval.
  vm_compute. reflexivity.
Defined.

Lemma bin_dirs_fresh_witness :
  (String.string_of_list_ascii ["5"%char; newline], NDir true []) ∈ newline_five_listing /\
  is_dir (NDir true []) = true /\
  String.string_of_list_ascii ["5"%char; newline] ∉ bin_dir_names newline_five_listing 2.
Proof.
  assert (Hin : (String.string_of_list_ascii ["5"%char; newline], NDir true []) ∈ newline_five_listing).
  { unfold newline_five_listing. apply list_elem_of_here. }
  split; [exact Hin|]. split; [reflexivity|].
  exact (bin_dirs_fresh newline_five_listing 2 _ (NDir true []) Hin eq_refl).
Defined.

Lemma split_batches_not_mergeable_witness :
  (split_batches 10 [("a", 6); ("b", 5); ("c", 4); ("d", 3)]%string).2 = [10; 8] /\ 10 < 10 + 8.
Proof.
  split; [vm_compute; reflexivity|].
  apply (split_batches_not_mergeable 10 [("a", 6); ("b", 5); ("c", 4); ("d", 3)]%string 0 1);
    [lia|vm_compute; reflexivity|vm_compute; reflexivity].
Defined.

Lemma split_plan_sound_witness :
  NoDup (fst <$> [("a"%string, NReg 2); ("b"%string, NReg 3)]) /\
  split_operations ["d"%string] 0 (split_batches 4 (split_scan [("a"%string, NReg 2); ("b"%string, NReg 3)])).1
    = [(["d"; "b"], ["d"; "1"; "b"], "1"); (["d"; "a"], ["d"; "2"; "a"], "2")]%string /\
  NoDup ((fun op : path * path * string => op.1.2) <$>
    split_operations ["d"%string] 0 (split_batches 4 (split_scan [("a"%string, NReg 2); ("b"%string, NReg 3)])).1).
Proof.
  assert (Hnd : NoDup (fst <$> [("a"%string, NReg 2); ("b"%string, NReg 3)])).
  { apply (bool_decide_unpack _). vm_compute. reflexivity. }
  split; [exact Hnd|]. split; [vm_compute; reflexivity|].
  apply (split_plan_sound ["d"%string] 0 4 _ Hnd).
Defined.

Lemma split_loop_dirs_witness :
  (∅ : gset path) ⊆ dirs w_d /\
  (let '(o, (w', c'), log) :=
     exec_loop (split_step same_dev_rename copy_ok unlink_ok mkdir_ok ["d"%string])
       (fun op => op.1.1) (fun op => op.1.2)
       (split_operations ["d"%string] 0 [[("a"%string, 2)]]) 0 1 (w_d, ∅) in
   o = Returned /\ dirs w_d ⊆ dirs w' /\ c' ⊆ dirs w').
Proof.
  assert (Hc : (∅ : gset path) ⊆ dirs w_d) by set_solver.
  split; [exact Hc|].
  destruct (exec_loop _ _ _ _ _ _ (w_d, ∅)) as [[o [w' c']] log] eqn:He.
  split; [vm_compute in He; congruence|].
  exact (split_loop_dirs same_dev_rename copy_ok unlink_ok mkdir_ok ["d"%string] _ 0 1
           w_d ∅ o w' c' log Hc He).
Defined.

Lemma split_loop_frame_witness :
  (forall op, op ∈ split_operations ["d"%string] 0 [[("a"%string, 2)]] ->
     ["d"; "b"]%string <> op.1.1 /\ ["d"; "b"]%string <> op.1.2) /\
  (let '(o, (w', c'), log) :=
     exec_loop (split_step same_dev_rename copy_ok unlink_ok mkdir_ok ["d"%string])
       (fun op => op.1.1) (fun op => op.1.2)
       (split_operations ["d"%string] 0 [[("a"%string, 2)]]) 0 1 (w_d, ∅) in
   o = Returned /\ files w' !! ["d"; "b"]%string = files w_d !! ["d"; "b"]%string).
Proof.
  assert (Hp : forall op, op ∈ split_operations ["d"%string] 0 [[("a"%string, 2)]] ->
     ["d"; "b"]%string <> op.1.1 /\ ["d"; "b"]%string <> op.1.2).
  { vm_compute. intros op ->%list_elem_of_singleton. simpl. split; discriminate. }
  split; [exact Hp|].
  destruct (exec_loop _ _ _ _ _ _ (w_d, ∅)) as [[o [w' c']] log] eqn:He.
  split; [vm_compute in He; congruence|].
  exact (split_loop_frame same_dev_rename copy_ok unlink_ok mkdir_ok ["d"%string] _ 0 1
           w_d ∅ o w' c' log ["d"; "b"]%string Hp He).
Defined.
